(** * setup.py of yt-api-legacy: key extraction and operator input

    A shallow embedding of the configuration generator's logic:
    [extract_string], [extract_innertube_api_key],
    [get_fresh_innertube_key] and [ask_for_api_keys], together with the
    parts of the Python runtime they call ([re.search] on the two
    patterns, [json.loads], [str.strip], [str.split]). *)

From Stdlib Require Import List NArith ZArith Lia Bool String Ascii.
Import ListNotations.
Open Scope N_scope.

(** ** Python strings

    A Python [str] is a sequence of Unicode code points. *)

Abbreviation char := N (only parsing).
Abbreviation str := (list N) (only parsing).

(** An ASCII literal of the source as a [str]. *)
Definition py (s : string) : str :=
  map N_of_ascii (list_ascii_of_string s).

Definition dquote : char := 34.
Definition squote : char := 39.

(** Page texts are full of double quotes; [pyq] reads a literal in which
    every apostrophe stands for a double quote (code point 34). *)
Definition pyq (s : string) : str :=
  map (fun c => if c =? squote then dquote else c) (py s).

Definition backslash : char := 92.
Definition colon : char := 58.
Definition comma : char := 44.

(** [str.isspace] on one code point ([Py_UNICODE_ISSPACE]); this is the
    class [\s] of [re] on [str] patterns and what [str.strip()] removes. *)
Definition is_space (c : char) : bool :=
  ((9 <=? c) && (c <=? 13)) || ((28 <=? c) && (c <=? 32))
  || (c =? 133) || (c =? 160) || (c =? 5760)
  || ((8192 <=? c) && (c <=? 8202))
  || (c =? 8232) || (c =? 8233) || (c =? 8239) || (c =? 8287)
  || (c =? 12288).

Definition not_dquote (c : char) : bool := negb (c =? dquote).
Definition any_char (_ : char) : bool := true.

Fixpoint str_eqb (a b : str) : bool :=
  match a, b with
  | [], [] => true
  | x :: a', y :: b' => (x =? y) && str_eqb a' b'
  | _, _ => false
  end.

(** ** The fragment of [re] the two patterns use

    Literal text, the quantifiers [*], [+] and [+?] over a character
    class, concatenation and the capturing group 1.  Matching is by
    backtracking, as in [sre]: greedy quantifiers try the longest run
    first, the lazy one the shortest. *)

Inductive regex : Type :=
| Lit (l : str)
| Star (p : char -> bool)
| Plus (p : char -> bool)
| LazyPlus (p : char -> bool)
| Cat (r1 r2 : regex)
| Group (r : regex).

Declare Scope regex_scope.
Delimit Scope regex_scope with re.
Notation "r1 +++ r2" := (Cat r1 r2)
  (at level 60, right associativity) : regex_scope.

Fixpoint lit_match (l s : str) : option str :=
  match l, s with
  | [], _ => Some s
  | c :: l', d :: s' => if c =? d then lit_match l' s' else None
  | _ :: _, [] => None
  end.

Section Backtracking.
Context {A : Type}.

Fixpoint star_greedy (p : char -> bool) (s : str) (k : str -> option A)
  : option A :=
  match s with
  | c :: s' =>
      if p c then
        match star_greedy p s' k with
        | Some a => Some a
        | None => k s
        end
      else k s
  | [] => k []
  end.

Definition plus_greedy (p : char -> bool) (s : str) (k : str -> option A)
  : option A :=
  match s with
  | c :: s' => if p c then star_greedy p s' k else None
  | [] => None
  end.

Fixpoint plus_lazy (p : char -> bool) (s : str) (k : str -> option A)
  : option A :=
  match s with
  | c :: s' =>
      if p c then
        match k s' with
        | Some a => Some a
        | None => plus_lazy p s' k
        end
      else None
  | [] => None
  end.

(** [rmatch r s g k]: match [r] at the start of [s] with group 1
    currently [g]; [k] continues on the rest of the text and decides
    whether this way of matching is kept. *)
Fixpoint rmatch (r : regex) (s : str) (g : option str)
  (k : str -> option str -> option A) : option A :=
  match r with
  | Lit l =>
      match lit_match l s with
      | Some s' => k s' g
      | None => None
      end
  | Star p => star_greedy p s (fun s' => k s' g)
  | Plus p => plus_greedy p s (fun s' => k s' g)
  | LazyPlus p => plus_lazy p s (fun s' => k s' g)
  | Cat r1 r2 => rmatch r1 s g (fun s' g' => rmatch r2 s' g' k)
  | Group r1 =>
      rmatch r1 s g
        (fun s' _ =>
           k s' (Some (firstn (List.length s - List.length s') s)))
  end.

End Backtracking.

(** A match object; [group1 m] is [m.group(1)]. *)
Record Match : Type := { group1 : option str }.

Definition re_match_at (r : regex) (s : str) : option Match :=
  rmatch r s None (fun _ g => Some {| group1 := g |}).

(** [re.search]: the match at the leftmost position that has one. *)
Fixpoint re_search (r : regex) (s : str) : option Match :=
  match re_match_at r s with
  | Some m => Some m
  | None =>
      match s with
      | [] => None
      | _ :: s' => re_search r s'
      end
  end.

(** ** extract_string *)

(** The pattern of [extract_string]: the key between double quotes (made
    literal text by [re.escape]), [\s*], a colon, [\s*], a double quote,
    group 1 = one or more characters other than the double quote, and a
    double quote. *)
Definition string_pattern (key : str) : regex :=
  (Lit (dquote :: key ++ [dquote]) +++ Star is_space +++ Lit [colon] +++
   Star is_space +++ Lit [dquote] +++ Group (Plus not_dquote) +++
   Lit [dquote])%re.

Definition extract_string (key text : str) : option str :=
  match re_search (string_pattern key) text with
  | Some m => group1 m
  | None => None
  end.

Definition INNERTUBE_API_KEY : str := py "INNERTUBE_API_KEY".

(** ** Python values, exceptions

    What [json.loads] can build, which is also what
    [extract_innertube_api_key] can hand back.  A float literal is kept
    as its exact decimal value, sign, digits [m] and exponent [e] for
    [m * 10^e]; nothing below needs more of a float than whether it is
    zero. *)

Inductive pyfloat : Type :=
| FDec (neg : bool) (m : N) (e : Z)
| FInf (neg : bool)
| FNaN.

#[warnings="-register-all"]
Inductive value : Type :=
| VNone
| VBool (b : bool)
| VInt (z : Z)
| VFloat (f : pyfloat)
| VStr (s : str)
| VList (l : list value)
| VDict (d : list (str * value)).

(** Exceptions.  [PyError cls text] is an exception of any other class,
    given by the name of the class and by its text, [str(e)]. *)
Inductive exn : Type :=
| JSONDecodeError
| RecursionError
| ValueError
| TypeError
| AttributeError
| RequestException
| PyError (cls : str) (text : str).

(** [str(e)].  The exceptions of [json.loads] and of [cfg.get] never have
    their text read, [extract_innertube_api_key] catches them;
    [RequestException] stands for one raised without arguments, whose
    text is empty. *)
Definition exn_text (e : exn) : str :=
  match e with
  | PyError _ text => text
  | _ => []
  end.

Inductive result (A : Type) : Type :=
| Ok (a : A)
| Raise (e : exn).
Arguments Ok {A} a.
Arguments Raise {A} e.

Definition bind {A B : Type} (c : result A) (k : A -> result B) : result B :=
  match c with
  | Ok a => k a
  | Raise e => Raise e
  end.

Notation "'let*' x ':=' c 'in' k" := (bind c (fun x => k))
  (at level 10, x pattern, c at level 100, k at level 200).

(** [try: c except Exception: h]. *)
Definition try_except {A : Type} (c : result A) (h : exn -> result A)
  : result A :=
  match c with
  | Ok a => Ok a
  | Raise e => h e
  end.

(** The decimal [m * 10^e] is read as the nearest double, ties to even;
    the nearest double is zero exactly when [m * 10^e <= 2^-1075]. *)
Definition float_is_zero (f : pyfloat) : bool :=
  match f with
  | FDec _ m e =>
      (m =? 0) ||
      ((e <? 0)%Z && (Z.of_N m * 2 ^ 1075 <=? 10 ^ (- e))%Z)
  | FInf _ => false
  | FNaN => false
  end.

(** Truth value of an object, as [if key:] tests it. *)
Definition truthy (v : value) : bool :=
  match v with
  | VNone => false
  | VBool b => b
  | VInt z => negb (z =? 0)%Z
  | VFloat f => negb (float_is_zero f)
  | VStr s => match s with [] => false | _ => true end
  | VList l => match l with [] => false | _ => true end
  | VDict d => match d with [] => false | _ => true end
  end.

(** A [dict] keeps its keys in insertion order; storing under a key that
    is present replaces the value in place. *)
Fixpoint dict_set (d : list (str * value)) (k : str) (v : value)
  : list (str * value) :=
  match d with
  | [] => [(k, v)]
  | (k', v') :: d' =>
      if str_eqb k' k then (k', v) :: d' else (k', v') :: dict_set d' k v
  end.

Fixpoint dict_get (d : list (str * value)) (k : str) : option value :=
  match d with
  | [] => None
  | (k', v') :: d' => if str_eqb k' k then Some v' else dict_get d' k
  end.

(** [obj.get(k)]: only a [dict] has the method here; the default is
    [None]. *)
Definition py_get (obj : value) (k : str) : result value :=
  match obj with
  | VDict d =>
      match dict_get d k with
      | Some v => Ok v
      | None => Ok VNone
      end
  | _ => Raise AttributeError
  end.

(** Limits of the running interpreter that [json.loads] can hit: how many
    containers deep the scanner may recurse before [RecursionError], and
    [sys.get_int_max_str_digits()], the most digits an integer literal
    may have, where 0 stands for no limit.  The defaults are those of
    CPython 3.11: with the recursion limit of 1000 and the frames between
    the script and the scanner, 992 containers can be nested. *)
Record interp : Type := {
  recursion_depth : nat;
  int_max_str_digits : nat
}.

Definition cpython_defaults : interp :=
  {| recursion_depth := 992; int_max_str_digits := 4300 |}.

(** ** json.loads

    The decoder of the standard library ([json.decoder], [json.scanner]
    and the accelerated scanner, which agree on what they accept): strict
    mode, no hooks. *)

Definition is_json_ws (c : char) : bool :=
  (c =? 32) || (c =? 9) || (c =? 10) || (c =? 13).

Fixpoint skip_ws (s : str) : str :=
  match s with
  | c :: s' => if is_json_ws c then skip_ws s' else s
  | [] => []
  end.

Definition is_digit (c : char) : bool := (48 <=? c) && (c <=? 57).

(** Longest prefix of [s] whose characters satisfy [p], and the rest. *)
Fixpoint span (p : char -> bool) (s : str) : str * str :=
  match s with
  | c :: s' =>
      if p c then let (a, b) := span p s' in (c :: a, b) else ([], s)
  | [] => ([], [])
  end.

Definition digits_value (ds : str) : N :=
  fold_left (fun a d => 10 * a + (d - 48)) ds 0.

Definition hex_digit (c : char) : option N :=
  if (48 <=? c) && (c <=? 57) then Some (c - 48)
  else if (97 <=? c) && (c <=? 102) then Some (c - 87)
  else if (65 <=? c) && (c <=? 70) then Some (c - 55)
  else None.

(** [_decode_uXXXX]: exactly four hexadecimal digits. *)
Definition hex4 (a b c d : char) : option N :=
  match hex_digit a, hex_digit b, hex_digit c, hex_digit d with
  | Some x, Some y, Some z, Some w => Some (((x * 16 + y) * 16 + z) * 16 + w)
  | _, _, _, _ => None
  end.

(** The table [BACKSLASH]. *)
Definition backslash_escape (c : char) : option char :=
  if c =? dquote then Some dquote
  else if c =? backslash then Some backslash
  else if c =? 47 then Some 47
  else if c =? 98 then Some 8
  else if c =? 102 then Some 12
  else if c =? 110 then Some 10
  else if c =? 114 then Some 13
  else if c =? 116 then Some 9
  else None.

Definition is_high_surrogate (u : N) : bool := (55296 <=? u) && (u <=? 56319).
Definition is_low_surrogate (u : N) : bool := (56320 <=? u) && (u <=? 57343).
Definition join_surrogates (u u2 : N) : N :=
  65536 + N.lor (N.shiftl (u - 55296) 10) (u2 - 56320).

(** [scanstring s acc]: [s] starts just after the opening quote, [acc]
    holds the characters decoded so far, last first.  Returns the decoded
    string and the text after the closing quote. *)
Fixpoint scanstring (s : str) (acc : str) : result (str * str) :=
  match s with
  | [] => Raise JSONDecodeError
  | c :: r =>
      if c =? dquote then Ok (rev acc, r)
      else if c =? backslash then
        match r with
        | [] => Raise JSONDecodeError
        | esc :: r1 =>
            if esc =? 117 then
              match r1 with
              | h1 :: h2 :: h3 :: h4 :: r2 =>
                  match hex4 h1 h2 h3 h4 with
                  | None => Raise JSONDecodeError
                  | Some uni =>
                      if is_high_surrogate uni then
                        match r2 with
                        | b :: u :: r2' =>
                            if (b =? backslash) && (u =? 117) then
                              match r2' with
                              | k1 :: k2 :: k3 :: k4 :: r3 =>
                                  match hex4 k1 k2 k3 k4 with
                                  | None => Raise JSONDecodeError
                                  | Some uni2 =>
                                      if is_low_surrogate uni2
                                      then scanstring r3
                                             (join_surrogates uni uni2 :: acc)
                                      else scanstring r2 (uni :: acc)
                                  end
                              | _ => Raise JSONDecodeError
                              end
                            else scanstring r2 (uni :: acc)
                        | _ => scanstring r2 (uni :: acc)
                        end
                      else scanstring r2 (uni :: acc)
                  end
              | _ => Raise JSONDecodeError
              end
            else
              match backslash_escape esc with
              | Some ch => scanstring r1 (ch :: acc)
              | None => Raise JSONDecodeError
              end
        end
      else if c <? 32 then Raise JSONDecodeError
      else scanstring r (c :: acc)
  end.

(** The optional parts of a number after its integer digits [intd]:
    a fraction (a dot and at least one digit) and an exponent ([e] or
    [E], an optional sign, at least one digit; otherwise the [e] is not
    part of the number). *)
Definition number_frac (s : str) : option str * str :=
  match s with
  | dot :: d :: r =>
      if (dot =? 46) && is_digit d
      then let (fd, s') := span is_digit (d :: r) in (Some fd, s')
      else (None, s)
  | _ => (None, s)
  end.

Definition number_exp (s : str) : option Z * str :=
  match s with
  | e :: r =>
      if (e =? 101) || (e =? 69) then
        let '(neg, r1) :=
          match r with
          | sg :: r' =>
              if sg =? 45 then (true, r')
              else if sg =? 43 then (false, r')
              else (false, r)
          | [] => (false, r)
          end in
        let (ed, s') := span is_digit r1 in
        match ed with
        | [] => (None, s)
        | _ =>
            let n := Z.of_N (digits_value ed) in
            (Some (if neg then (- n)%Z else n), s')
        end
      else (None, s)
  | [] => (None, s)
  end.

Definition number_tail (I : interp) (neg : bool) (intd : str) (s : str)
  : result (value * str) :=
  let (frac, s1) := number_frac s in
  let (ex, s2) := number_exp s1 in
  match frac, ex with
  | None, None =>
      if ((0 <? int_max_str_digits I) &&
          (int_max_str_digits I <? List.length intd))%nat
      then Raise ValueError
      else
        let n := Z.of_N (digits_value intd) in
        Ok (VInt (if neg then (- n)%Z else n), s2)
  | _, _ =>
      let fd := match frac with Some fd => fd | None => [] end in
      let e := match ex with Some e => e | None => 0%Z end in
      Ok (VFloat (FDec neg (digits_value (intd ++ fd))
                    (e - Z.of_nat (List.length fd))), s2)
  end.

(** [_match_number]: an optional minus, then [0] or a digit [1-9]
    followed by digits. *)
Definition match_number (I : interp) (s : str) : result (value * str) :=
  let '(neg, s1) :=
    match s with
    | c :: r => if c =? 45 then (true, r) else (false, s)
    | [] => (false, s)
    end in
  match s1 with
  | c :: r =>
      if (49 <=? c) && (c <=? 57) then
        let (ds, s2) := span is_digit r in number_tail I neg (c :: ds) s2
      else if c =? 48 then number_tail I neg [c] r
      else Raise JSONDecodeError
  | [] => Raise JSONDecodeError
  end.

(** The named constants of the scanner, tried before a number. *)
Definition scan_constant (s : str) : option (value * str) :=
  match lit_match (py "null") s with
  | Some r => Some (VNone, r)
  | None =>
  match lit_match (py "true") s with
  | Some r => Some (VBool true, r)
  | None =>
  match lit_match (py "false") s with
  | Some r => Some (VBool false, r)
  | None =>
  match lit_match (py "NaN") s with
  | Some r => Some (VFloat FNaN, r)
  | None =>
  match lit_match (py "Infinity") s with
  | Some r => Some (VFloat (FInf false), r)
  | None =>
  match lit_match (py "-Infinity") s with
  | Some r => Some (VFloat (FInf true), r)
  | None => None
  end end end end end end.

(** The scanner recurses through containers.  [fuel] makes the recursion
    structural and is spent on every call; [json_loads] starts with more
    than the text can use ([scan_fuel_enough] below), and [None] stands
    for fuel that ran out.  [depth] is the recursion the interpreter
    still allows: entering an object or an array takes one level. *)

Definition expecting {A : Type} : option (result A) :=
  Some (Raise JSONDecodeError).

Fixpoint scan_once (I : interp) (fuel depth : nat) (s : str)
  : option (result (value * str)) :=
  match fuel with
  | O => None
  | S fuel' =>
      match s with
      | [] => expecting
      | c :: r =>
          if c =? dquote then
            Some (let* (v, r') := scanstring r [] in Ok (VStr v, r'))
          else if c =? 123 then
            match depth with
            | O => Some (Raise RecursionError)
            | S depth' =>
                match skip_ws r with
                | c' :: r' =>
                    if c' =? 125 then Some (Ok (VDict [], r'))
                    else object_members I fuel' depth' (c' :: r') []
                | [] => expecting
                end
            end
          else if c =? 91 then
            match depth with
            | O => Some (Raise RecursionError)
            | S depth' =>
                match skip_ws r with
                | c' :: r' =>
                    if c' =? 93 then Some (Ok (VList [], r'))
                    else array_items I fuel' depth' (c' :: r') []
                | [] => expecting
                end
            end
          else
            match scan_constant s with
            | Some vr => Some (Ok vr)
            | None => Some (match_number I s)
            end
      end
  end

(** The loop of [JSONObject]; [s] is where a key must start and [d] the
    pairs read so far. *)
with object_members (I : interp) (fuel depth : nat) (s : str)
  (d : list (str * value)) : option (result (value * str)) :=
  match fuel with
  | O => None
  | S fuel' =>
      match s with
      | c :: r =>
          if c =? dquote then
            match scanstring r [] with
            | Raise e => Some (Raise e)
            | Ok (key, r1) =>
                match skip_ws r1 with
                | c2 :: r2 =>
                    if c2 =? colon then
                      match scan_once I fuel' depth (skip_ws r2) with
                      | None => None
                      | Some (Raise e) => Some (Raise e)
                      | Some (Ok (v, r3)) =>
                          let d' := dict_set d key v in
                          match skip_ws r3 with
                          | c4 :: r4 =>
                              if c4 =? 125 then Some (Ok (VDict d', r4))
                              else if c4 =? comma then
                                object_members I fuel' depth (skip_ws r4) d'
                              else expecting
                          | [] => expecting
                          end
                      end
                    else expecting
                | [] => expecting
                end
            end
          else expecting
      | [] => expecting
      end
  end

(** The loop of [JSONArray]; [acc] holds the items read so far, last
    first. *)
with array_items (I : interp) (fuel depth : nat) (s : str)
  (acc : list value) : option (result (value * str)) :=
  match fuel with
  | O => None
  | S fuel' =>
      match scan_once I fuel' depth s with
      | None => None
      | Some (Raise e) => Some (Raise e)
      | Some (Ok (v, r1)) =>
          match skip_ws r1 with
          | c2 :: r2 =>
              if c2 =? 93 then Some (Ok (VList (rev (v :: acc)), r2))
              else if c2 =? comma then
                array_items I fuel' depth (skip_ws r2) (v :: acc)
              else expecting
          | [] => expecting
          end
      end
  end.

(** [json.loads(s)] for a [str]: leading whitespace, one value, trailing
    whitespace, nothing else. *)
Definition json_loads (I : interp) (s : str) : result value :=
  match s with
  | 65279 :: _ => Raise JSONDecodeError
  | _ =>
      match scan_once I (2 * List.length s + 2) (recursion_depth I)
              (skip_ws s) with
      | None => Raise RecursionError
      | Some (Raise e) => Raise e
      | Some (Ok (v, r)) =>
          match skip_ws r with
          | [] => Ok v
          | _ :: _ => Raise JSONDecodeError
          end
      end
  end.

(** ** extract_innertube_api_key *)

(** The pattern [ytcfg\.set\(\s*({.+?})\s*\)\s*;] with [re.DOTALL], so
    that the dot is any character. *)
Definition ytcfg_pattern : regex :=
  (Lit (py "ytcfg.set(") +++ Star is_space +++
   Group (Lit [123] +++ LazyPlus any_char +++ Lit [125]) +++
   Star is_space +++ Lit [41] +++ Star is_space +++ Lit [59])%re.

(** [json.loads(m.group(1))]; a group that took no part is [None], which
    [json.loads] refuses. *)
Definition json_loads_group (I : interp) (g : option str) : result value :=
  match g with
  | Some s => json_loads I s
  | None => Raise TypeError
  end.

Definition extract_innertube_api_key (I : interp) (html : str)
  : result value :=
  let key := extract_string INNERTUBE_API_KEY html in
  match key with
  | Some (c :: k) => Ok (VStr (c :: k))
  | _ =>
      match re_search ytcfg_pattern html with
      | Some m =>
          try_except
            (let* cfg := json_loads_group I (group1 m) in
             py_get cfg INNERTUBE_API_KEY)
            (fun _ => Ok VNone)
      | None => Ok VNone
      end
  end.

(** ** get_fresh_innertube_key

    The function talks to the network and the console.  Both are kept in
    one trace of events.  A server is any function from the events so far
    and the request to a response or an exception raised by
    [requests.get].  A console is any function from the events so far
    and the message to the outcome of [print]: the line is written, or
    [print] raises, as [sys.stdout] does with [UnicodeEncodeError] for a
    text that its encoding cannot take. *)

Record request : Type := {
  req_url : str;
  req_headers : list (str * str);
  req_timeout : N
}.

Record response : Type := {
  status_code : Z;
  text : str
}.

Inductive message : Type :=
| MsgTrying (url : str)
| MsgFound (key : value)
| MsgError (url : str) (e : exn)
| MsgNotFound.

(** [Print m]: a call of [print] that wrote its line; [PrintRaised m]: a
    call of [print] that raised, having written at most a part of the
    line. *)
Inductive event : Type :=
| Print (m : message)
| Get (rq : request)
| PrintRaised (m : message).

Definition network : Type := list event -> request -> result response.

(** [None]: the line is written; [Some e]: [print] raises [e]. *)
Definition console : Type := list event -> message -> option exn.

Definition DEFAULT_UA : str :=
  py "Mozilla/5.0 (Web0S; Linux/SmartTV) AppleWebKit/537.36 (KHTML, like Gecko) Chrome/79.0.3945.79 Safari/537.36 DMOST/2.0.0 (; LGE; webOSTV; WEBOS6.3.2 03.34.95; W6_lm21a;)".

Definition url_tv : str := py "https://www.youtube.com/tv".
Definition url_root : str := py "https://www.youtube.com/".
Definition url_embed : str := py "https://www.youtube.com/embed/".

Definition urls_to_try : list str := [url_tv; url_root; url_embed].

Definition make_headers (user_agent : str) : list (str * str) :=
  [(py "User-Agent", user_agent);
   (py "Accept-Language", py "en-US,en;q=0.9");
   (py "Accept",
    py "text/html,application/xhtml+xml,application/xml;q=0.9,*/*;q=0.8")].

(** [requests.get(url, headers=headers, timeout=12)] *)
Definition request_for (headers : list (str * str)) (url : str) : request :=
  {| req_url := url; req_headers := headers; req_timeout := 12 |}.

(** The [except] clause of the loop: the exception is reported, and
    the loop goes on with [next]; an exception raised by this [print]
    leaves the function. *)
Definition except_handler (con : console) (url : str) (e : exn)
  (tr : list event) (next : list event -> result value * list event)
  : result value * list event :=
  match con tr (MsgError url e) with
  | None => next (tr ++ [Print (MsgError url e)])
  | Some e' => (Raise e', tr ++ [PrintRaised (MsgError url e)])
  end.

(** The [for] loop on the urls still to try; [tr] is the trace so far.
    The two calls of [print] in the [try] block raise into the [except]
    clause; the call after the loop raises out of the function. *)
Fixpoint probe (I : interp) (net : network) (con : console)
  (headers : list (str * str)) (urls : list str) (tr : list event)
  : result value * list event :=
  match urls with
  | [] =>
      match con tr MsgNotFound with
      | None => (Ok VNone, tr ++ [Print MsgNotFound])
      | Some e => (Raise e, tr ++ [PrintRaised MsgNotFound])
      end
  | url :: rest =>
      let rq := request_for headers url in
      let next := probe I net con headers rest in
      match con tr (MsgTrying url) with
      | Some e =>
          except_handler con url e (tr ++ [PrintRaised (MsgTrying url)]) next
      | None =>
          let tr1 := tr ++ [Print (MsgTrying url)] in
          let tr2 := tr1 ++ [Get rq] in
          match net tr1 rq with
          | Raise e => except_handler con url e tr2 next
          | Ok r =>
              if negb (status_code r =? 200)%Z then next tr2
              else
                match extract_innertube_api_key I (text r) with
                | Raise e => except_handler con url e tr2 next
                | Ok key =>
                    if truthy key
                    then
                      match con tr2 (MsgFound key) with
                      | None => (Ok key, tr2 ++ [Print (MsgFound key)])
                      | Some e =>
                          except_handler con url e
                            (tr2 ++ [PrintRaised (MsgFound key)]) next
                      end
                    else next tr2
                end
          end
      end
  end.

Definition get_fresh_innertube_key (I : interp) (net : network)
  (con : console) (user_agent : str) : result value * list event :=
  probe I net con (make_headers user_agent) urls_to_try [].

(** The code points that UTF-8 does not encode. *)
Definition is_surrogate (c : char) : bool := (55296 <=? c) && (c <=? 57343).

Fixpoint uint_chars (d : Decimal.uint) : str :=
  match d with
  | Decimal.Nil => []
  | Decimal.D0 d' => 48 :: uint_chars d'
  | Decimal.D1 d' => 49 :: uint_chars d'
  | Decimal.D2 d' => 50 :: uint_chars d'
  | Decimal.D3 d' => 51 :: uint_chars d'
  | Decimal.D4 d' => 52 :: uint_chars d'
  | Decimal.D5 d' => 53 :: uint_chars d'
  | Decimal.D6 d' => 54 :: uint_chars d'
  | Decimal.D7 d' => 55 :: uint_chars d'
  | Decimal.D8 d' => 56 :: uint_chars d'
  | Decimal.D9 d' => 57 :: uint_chars d'
  end.

(** [str(n)] *)
Definition decimal (n : nat) : str := uint_chars (Nat.to_uint n).

Definition hex_char (d : N) : char := if d <? 10 then 48 + d else 87 + d.

(** Four hexadecimal digits, as the escape of a character has them. *)
Definition hex4_chars (c : N) : str :=
  [hex_char ((c / 4096) mod 16); hex_char ((c / 256) mod 16);
   hex_char ((c / 16) mod 16); hex_char (c mod 16)].

Fixpoint surrogate_run (s : str) : nat :=
  match s with
  | c :: s' => if is_surrogate c then S (surrogate_run s') else O
  | [] => O
  end.

(** What the encoder raises on [s], whose first character has index
    [pos] in the text written: the error names the first run of
    surrogates. *)
Fixpoint utf8_encode_error (s : str) (pos : nat) : option exn :=
  match s with
  | [] => None
  | c :: s' =>
      if is_surrogate c then
        Some (PyError (py "UnicodeEncodeError")
                (match surrogate_run s' with
                 | O =>
                     py "'utf-8' codec can't encode character '\u" ++
                     hex4_chars c ++ py "' in position " ++ decimal pos
                 | S n =>
                     py "'utf-8' codec can't encode characters in position "
                     ++ decimal pos ++ [45] ++ decimal (pos + S n)
                 end ++ py ": surrogates not allowed"))
      else utf8_encode_error s' (S pos)
  end.

(** A console that encodes as UTF-8 and refuses what it cannot encode:
    [sys.stdout] with encoding utf-8 and error handler strict.
    [print] writes each of its arguments by a call of its own.  The
    announcement and the report are one text each.  Of the line that
    shows the key only the text of the key can hold a surrogate, and
    only when the key is a string: [str] of any other value writes the
    surrogates of the strings in it as escapes. *)
Definition utf8_console : console :=
  fun _ m =>
    match m with
    | MsgTrying url =>
        utf8_encode_error
          (py "Trying to fetch key from " ++ [8594; 32] ++ url) 0
    | MsgFound (VStr key) => utf8_encode_error key 0
    | MsgFound _ => None
    | MsgError url e =>
        utf8_encode_error
          (py "Error requesting " ++ url ++ py ": " ++ exn_text e) 0
    | MsgNotFound => None
    end.

(** The requests of a trace, in the order they were sent. *)
Fixpoint fetched (tr : list event) : list str :=
  match tr with
  | [] => []
  | Get rq :: tr' => req_url rq :: fetched tr'
  | Print _ :: tr' => fetched tr'
  | PrintRaised _ :: tr' => fetched tr'
  end.

(** ** ask_for_api_keys *)

Fixpoint lstrip (s : str) : str :=
  match s with
  | c :: s' => if is_space c then lstrip s' else s
  | [] => []
  end.

Definition rstrip (s : str) : str := rev (lstrip (rev s)).

(** [s.strip()] *)
Definition strip (s : str) : str := rstrip (lstrip s).

(** [s.split(sep)] for a separator of one character. *)
Fixpoint split (sep : char) (s : str) : list str :=
  match s with
  | [] => [[]]
  | c :: s' =>
      if c =? sep then [] :: split sep s'
      else
        match split sep s' with
        | h :: t => (c :: h) :: t
        | [] => [[c]]
        end
  end.

Definition nonempty (s : str) : bool :=
  match s with
  | [] => false
  | _ :: _ => true
  end.

(** [line] is what [input] returns; the lines printed for the operator
    are left out. *)
Definition ask_for_api_keys (line : str) : list str :=
  let value := strip line in
  if negb (nonempty value) then []
  else
    let keys :=
      map strip (filter (fun k => nonempty (strip k)) (split comma value)) in
    match keys with
    | [] => []
    | _ :: _ => keys
    end.

(** The same condition as a test that can be run. *)
Fixpoint matches_inside (r : regex) (pre s : str) : bool :=
  match pre with
  | [] => false
  | _ :: pre' =>
      match re_match_at r (pre ++ s) with
      | Some _ => true
      | None => matches_inside r pre' s
      end
  end.

(** The literal text of the first pattern, written out: the quoted key,
    whitespace, a colon, whitespace, the quoted value. *)
Definition direct_literal (key ws1 ws2 value : str) : str :=
  (dquote :: key ++ [dquote]) ++ ws1 ++ colon :: ws2 ++
  dquote :: value ++ [dquote].

(** The end of the second pattern, seen from a closing brace: the brace,
    whitespace, a closing parenthesis, whitespace, a semicolon. *)
Definition closes_at (s : str) : bool :=
  match s with
  | c :: s1 =>
      (c =? 125) &&
      match lstrip s1 with
      | c2 :: s2 =>
          (c2 =? 41) &&
          match lstrip s2 with
          | c3 :: _ => c3 =? 59
          | [] => false
          end
      | [] => false
      end
  | [] => false
  end.

(** Does [closes_at] hold somewhere inside [body], before [tail]? *)
Fixpoint closes_inside (body tail : str) : bool :=
  match body with
  | [] => false
  | _ :: body' => closes_at (body ++ tail) || closes_inside body' tail
  end.

(** The text of an embedded-object construct: the call, the object
    literal [obj] between parentheses, the semicolon. *)
Definition construct_tail (ws2 ws3 : str) : str :=
  ws2 ++ 41 :: ws3 ++ [59].

Definition embedded_construct (ws1 obj ws2 ws3 : str) : str :=
  py "ytcfg.set(" ++ ws1 ++ obj ++ construct_tail ws2 ws3.

(** ** What the statements below talk about *)


(** A result that is a string (possibly empty) or the absence of one. *)
Definition string_or_absent (r : result value) : Prop :=
  r = Ok VNone \/ exists k, r = Ok (VStr k).

(** Sample pages. *)
Definition page_empty_key : str :=
  pyq "ytcfg.set({'INNERTUBE_API_KEY': ''});".

Definition page_int_key : str :=
  pyq "ytcfg.set({'INNERTUBE_API_KEY': 5});".

Definition page_both : str :=
  pyq "ytcfg.set({'INNERTUBE\u005fAPI_KEY': 'from-object'}); var c = {'INNERTUBE_API_KEY': 'from-literal'};".

Definition page_two_literals : str :=
  pyq "'INNERTUBE_API_KEY':'first' 'INNERTUBE_API_KEY':'second'".


Definition page_empty_literal_then_object : str :=
  pyq "'INNERTUBE_API_KEY': '' ytcfg.set({'INNERTUBE\u005fAPI_KEY': 'from-object'});".

Definition page_two_literals_then_object : str :=
  pyq "'INNERTUBE_API_KEY':'first' 'INNERTUBE_API_KEY':'second' ytcfg.set({'INNERTUBE\u005fAPI_KEY': 'from-object'});".

Definition page_brace_in_string : str :=
  pyq "ytcfg.set({'a':'});','INNERTUBE\u005fAPI_KEY':'v'});".

Definition page_escaped_key : str :=
  pyq "<script>ytcfg.set( {'INNERTUBE\u005fAPI_KEY': 'AIzaSy', 'n': {'m': 1}} );</script>".

Definition page_broken_then_literal : str :=
  pyq "ytcfg.set({broken}); ytcfg.set({'INNERTUBE_API_KEY': 'v'});".

Definition page_broken_then_valid : str :=
  pyq "ytcfg.set({broken}); ytcfg.set({'INNERTUBE\u005fAPI_KEY': 'v'});".

(** What one attempt on [url] that does not end the loop leaves in the
    trace when the console takes the lines: the line announcing it, the
    request and, when the attempt raised, the line reporting the
    exception; a status other than 200 leaves no line. *)
Definition attempt_events (headers : list (str * str)) (url : str)
  (o : result response) : list event :=
  [Print (MsgTrying url); Get (request_for headers url)] ++
  match o with
  | Raise e => [Print (MsgError url e)]
  | Ok _ => []
  end.

(** A source that fails: [requests.get] raised, or the status is not
    200. *)
Definition source_failed (o : result response) : Prop :=
  match o with
  | Raise _ => True
  | Ok r => status_code r <> 200%Z
  end.

(** A source that yields no key: it failed, or the extractor found
    nothing it could use in the body. *)
Definition yields_nothing (I : interp) (o : result response) : Prop :=
  match o with
  | Raise _ => True
  | Ok r =>
      status_code r <> 200%Z \/
      exists v, extract_innertube_api_key I (text r) = Ok v /\
                truthy v = false
  end.

(** Servers for the examples: one answer per url, whatever came
    before. *)
Definition serve (tv root embed : result response) : network :=
  fun _ rq =>
    if str_eqb (req_url rq) url_tv then tv
    else if str_eqb (req_url rq) url_root then root
    else embed.

(** The console takes each line that [evs] has as printed, [tr] being
    the events before [evs]. *)
Fixpoint console_takes (con : console) (tr evs : list event) : Prop :=
  match evs with
  | [] => True
  | ev :: evs' =>
      match ev with
      | Print m => con tr m = None
      | _ => True
      end /\ console_takes con (tr ++ [ev]) evs'
  end.

(** Sample answers of a source. *)
Definition resp_fault : result response := Raise RequestException.

(** An exception whose text holds a lone surrogate, U+DCFF, as the
    interpreter makes of a byte it cannot decode in a setting of the
    environment. *)
Definition resp_fault_surrogate : result response :=
  Raise (PyError (py "ProxyError")
           (py "Cannot connect to proxy " ++ [56575] ++ py ":8080")).

Definition resp_503 : result response :=
  Ok {| status_code := 503; text := py "Service Unavailable" |}.

Definition resp_no_key : result response :=
  Ok {| status_code := 200; text := py "<html><body></body></html>" |}.

Definition page_literal : str :=
  pyq "<script>var cfg = {'INNERTUBE_API_KEY': 'AIzaSyTest'};</script>".

Definition resp_literal : result response :=
  Ok {| status_code := 200; text := page_literal |}.

Definition resp_empty_key : result response :=
  Ok {| status_code := 200; text := page_empty_key |}.

Definition resp_int_key : result response :=
  Ok {| status_code := 200; text := page_int_key |}.

(** The object stores a lone surrogate, U+D83D, under the key. *)
Definition page_surrogate_key : str :=
  pyq "ytcfg.set({'INNERTUBE\u005fAPI_KEY': '\ud83d'});".

Definition resp_surrogate_key : result response :=
  Ok {| status_code := 200; text := page_surrogate_key |}.

(** The words of the specification for the key list: split the input on
    commas, strip each entry, discard the empty ones, keep the order. *)
Definition split_strip_discard (input : str) : list str :=
  filter nonempty (map strip (split comma input)).

(** [l] with [ws] appended to its last entry. *)
Fixpoint app_last (l : list str) (ws : str) : list str :=
  match l with
  | [] => []
  | [h] => [h ++ ws]
  | h :: t => h :: app_last t ws
  end.

(** A run of the scanner on [s] that had fuel enough: it ended, and what
    it left of the text is no longer than [s]. *)
Definition ended_within (o : option (result (value * str))) (s : str) : Prop :=
  o <> None /\
  forall v r, o = Some (Ok (v, r)) -> (List.length r <= List.length s)%nat.

(** What follows the closing brace in the second pattern. *)
Definition after_brace : regex :=
  (Star is_space +++ Lit [41] +++ Star is_space +++ Lit [59])%re.

(** ** int(value)

    [int] on a [str], base 10, as [ask_for_port] calls it.  The characters
    with a decimal digit value come in blocks of ten consecutive code
    points; [decimal_zeros] lists the zero of each block (Unicode 14.0,
    the database of CPython 3.11). *)

Definition decimal_zeros : list N :=
  [48; 1632; 1776; 1984; 2406; 2534; 2662; 2790; 2918; 3046; 3174; 3302;
   3430; 3558; 3664; 3792; 3872; 4160; 4240; 6112; 6160; 6470; 6608; 6784;
   6800; 6992; 7088; 7232; 7248; 42528; 43216; 43264; 43472; 43504; 43600;
   44016; 65296; 66720; 68912; 69734; 69872; 69942; 70096; 70384; 70736;
   70864; 71248; 71360; 71472; 71904; 72016; 72784; 73040; 73120; 92768;
   92864; 93008; 120782; 120792; 120802; 120812; 120822; 123200; 123632;
   125264; 130032].

(** [Py_UNICODE_TODECIMAL] *)
Definition decimal_value (c : char) : option N :=
  match find (fun z => (z <=? c) && (c <? z + 10)) decimal_zeros with
  | Some z => Some (c - z)
  | None => None
  end.

(** [Py_ISSPACE], the whitespace of the ASCII parser. *)
Definition is_ascii_space (c : char) : bool :=
  ((9 <=? c) && (c <=? 13)) || (c =? 32).

(** [_PyUnicode_TransformDecimalAndSpaceToASCII]: an ASCII string is left
    as it is; otherwise digits of other scripts become ASCII digits,
    whitespace beyond ASCII a space, and the text is cut at the first
    other character beyond ASCII, marked by a question mark. *)
Fixpoint transform_chars (s : str) : str :=
  match s with
  | [] => []
  | c :: s' =>
      if c <? 127 then c :: transform_chars s'
      else if is_space c then 32 :: transform_chars s'
      else
        match decimal_value c with
        | Some d => (48 + d) :: transform_chars s'
        | None => [63]
        end
  end.

Definition transform_decimal_and_space (s : str) : str :=
  if forallb (fun c => c <? 128) s then s else transform_chars s.

Fixpoint skip_ascii_space (s : str) : str :=
  match s with
  | c :: s' => if is_ascii_space c then skip_ascii_space s' else s
  | [] => []
  end.

(** The digits of the literal: [s] follows a digit; a single underscore
    may stand between two digits.  Returns the digits read, last first,
    and the rest of the text; [None] for an underscore out of place. *)
Fixpoint int_digits (s : str) (acc : str) : option (str * str) :=
  match s with
  | c :: s' =>
      if is_digit c then int_digits s' (c :: acc)
      else if c =? 95 then
        match s' with
        | d :: s'' => if is_digit d then int_digits s'' (d :: acc) else None
        | [] => None
        end
      else Some (acc, s)
  | [] => Some (acc, [])
  end.

(** [int(s)]; [None] stands for the [ValueError] it raises. *)
Definition py_int (I : interp) (s : str) : option Z :=
  let s1 := skip_ascii_space (transform_decimal_and_space s) in
  let '(neg, s2) :=
    match s1 with
    | c :: r =>
        if c =? 45 then (true, r)
        else if c =? 43 then (false, r)
        else (false, s1)
    | [] => (false, s1)
    end in
  match s2 with
  | c :: r =>
      if is_digit c then
        match int_digits r [c] with
        | Some (racc, rest) =>
            match skip_ascii_space rest with
            | [] =>
                if ((0 <? int_max_str_digits I) &&
                    (int_max_str_digits I <? List.length racc))%nat
                then None
                else
                  let n := Z.of_N (digits_value (rev racc)) in
                  Some (if neg then (- n)%Z else n)
            | _ :: _ => None
            end
        | None => None
        end
      else None
  | [] => None
  end.

(** ** ask_for_port, ask_for_main_url

    The operator is a list of lines, one for each call of [input]; when
    the list is used up [input] raises [EOFError], which nothing
    catches. *)

Inductive port_message : Type :=
| PortOutOfRange
| PortNotANumber.

Inductive prompted (A : Type) : Type :=
| Answered (a : A) (rest : list str)
| EndOfInput.
Arguments Answered {A} a rest.
Arguments EndOfInput {A}.

(** Returns the complaints printed and the port with the lines left. *)
Fixpoint ask_for_port (I : interp) (lines : list str)
  : list port_message * prompted Z :=
  match lines with
  | [] => ([], EndOfInput)
  | line :: rest =>
      let value := strip line in
      if negb (nonempty value) then ([], Answered 2823%Z rest)
      else
        match py_int I value with
        | Some port =>
            if ((1 <=? port) && (port <=? 65535))%Z
            then ([], Answered port rest)
            else
              let (msgs, r) := ask_for_port I rest in
              (PortOutOfRange :: msgs, r)
        | None =>
            let (msgs, r) := ask_for_port I rest in
            (PortNotANumber :: msgs, r)
        end
  end.

Definition ask_for_main_url (lines : list str) : prompted str :=
  match lines with
  | [] => EndOfInput
  | line :: rest => Answered (strip line) rest
  end.

(** [ask_for_api_keys] on the operator's lines. *)
Definition ask_for_api_keys_from (lines : list str) : prompted (list str) :=
  match lines with
  | [] => EndOfInput
  | line :: rest => Answered (ask_for_api_keys line) rest
  end.

(** [sep.join(l)] *)
Fixpoint py_join (sep : str) (l : list str) : str :=
  match l with
  | [] => []
  | [k] => k
  | k :: l' => k ++ sep ++ py_join sep l'
  end.

(** ** main

    [main] up to the document it hands to [yaml.dump]; the serialisation
    and the file are left out.  So are the lines that [main] and the
    three prompts print before the probe: they are fixed texts, and the
    model is for a standard output that takes them, as one that encodes
    as UTF-8 does.  An exception that leaves the key probe leaves
    [main]: nothing there catches it. *)

Definition vstr (s : string) : value := VStr (py s).

Definition build_config (port : Z) (main_url : str) (active_keys : list str)
  (fresh_key : value) : value :=
  VDict
    [(py "server",
      VDict [(py "port", VInt port);
             (py "main_url", VStr main_url);
             (py "secret_key", vstr "test")]);
     (py "api",
      VDict [(py "request_timeout", VInt 30);
             (py "keys",
              VDict [(py "active", VList (map VStr active_keys));
                     (py "disabled", VList [])]);
             (py "innertube", VDict [(py "key", fresh_key)]);
             (py "oauth",
              VDict [(py "client_id",
                      vstr "861556708454-d6dlm3lh05idd8npek18k6be8ba3oc68.apps.googleusercontent.com");
                     (py "client_secret", vstr "SboVhoG9s0rNafixCSGGKXAT");
                     (py "redirect_uri", VNone)])]);
     (py "video",
      VDict [(py "source", vstr "innertube");
             (py "use_cookies", VBool false);
             (py "default_quality", vstr "360");
             (py "available_qualities",
              VList [vstr "144"; vstr "240"; vstr "360"; vstr "480";
                     vstr "720"; vstr "1080"; vstr "1440"; vstr "2160"]);
             (py "default_count", VInt 50)]);
     (py "proxy",
      VDict [(py "thumbnails",
              VDict [(py "video", VBool true);
                     (py "channel", VBool false);
                     (py "fetch_channel_thumbnails", VBool false)]);
             (py "video_proxy", VBool true)]);
     (py "cache",
      VDict [(py "temp_folder_max_size_mb", VInt 5120);
             (py "cleanup_threshold_mb", VInt 100)]);
     (py "instances",
      VList [vstr "https://yt.legacyprojects.ru";
             vstr "https://yt.modyleprojects.ru";
             vstr "https://ytcloud.meetlook.ru"])].

Inductive main_outcome : Type :=
| Document (config : value)
| InputEnded
| Failed (e : exn).

(** What a run of [main] leaves behind: its outcome, the complaints of
    the port prompt and the trace of the key probe. *)
Record main_run : Type := {
  outcome : main_outcome;
  port_messages : list port_message;
  probe_trace : list event
}.

Definition main_config (I : interp) (net : network) (con : console)
  (lines : list str) : main_run :=
  let (msgs, p) := ask_for_port I lines in
  match p with
  | EndOfInput =>
      {| outcome := InputEnded; port_messages := msgs; probe_trace := [] |}
  | Answered port lines1 =>
      match ask_for_main_url lines1 with
      | EndOfInput =>
          {| outcome := InputEnded; port_messages := msgs;
             probe_trace := [] |}
      | Answered main_url lines2 =>
          match ask_for_api_keys_from lines2 with
          | EndOfInput =>
              {| outcome := InputEnded; port_messages := msgs;
                 probe_trace := [] |}
          | Answered active_keys _ =>
              let (fresh, tr) :=
                get_fresh_innertube_key I net con DEFAULT_UA in
              match fresh with
              | Ok fresh_key =>
                  {| outcome :=
                       Document
                         (build_config port main_url active_keys fresh_key);
                     port_messages := msgs; probe_trace := tr |}
              | Raise e =>
                  {| outcome := Failed e; port_messages := msgs;
                     probe_trace := tr |}
              end
          end
      end
  end.

(** [config[k1][k2]...] *)
Fixpoint lookup (path : list str) (v : value) : option value :=
  match path with
  | [] => Some v
  | k :: path' =>
      match v with
      | VDict d =>
          match dict_get d k with
          | Some v' => lookup path' v'
          | None => None
          end
      | _ => None
      end
  end.

(** A key as [ask_for_api_keys] returns them: not empty, no comma, no
    whitespace at either end. *)
Definition clean_key (k : str) : Prop :=
  k <> [] /\ strip k = k /\ forallb (fun c => negb (c =? comma)) k = true.

(** A character that separates keys or is blank. *)
Definition comma_or_space (c : char) : bool := (c =? comma) || is_space c.

(** The requests of a trace, whole, in the order they were sent. *)
Fixpoint sent (tr : list event) : list request :=
  match tr with
  | [] => []
  | Get rq :: tr' => rq :: sent tr'
  | Print _ :: tr' => sent tr'
  | PrintRaised _ :: tr' => sent tr'
  end.

(** [s] is empty or starts with a character that is not whitespace. *)
Definition starts_unspaced (s : str) : Prop :=
  match s with
  | c :: _ => is_space c = false
  | [] => True
  end.

(** * Properties *)

(** ** The definitions at work *)

Example extract_string_ex1 :
  extract_string INNERTUBE_API_KEY
    (pyq "x = {'INNERTUBE_API_KEY' :  'AIza_1'}; 'INNERTUBE_API_KEY':'b'")
  = Some (py "AIza_1").
Proof. vm_compute. reflexivity. Qed.

Example json_loads_ex1 :
  json_loads cpython_defaults
    (pyq "{'a': [1, -2.50e1, true, null], 'bA': {'c': 'x\ny'}, 'a': 0}")
  = Ok (VDict [(py "a", VInt 0);
               (py "bA", VDict [(py "c", VStr [120; 10; 121])])]).
Proof. vm_compute. reflexivity. Qed.

Example json_loads_ex2 :
  json_loads cpython_defaults (pyq "{'a': 1,}") = Raise JSONDecodeError
  /\ json_loads cpython_defaults (pyq "{'a': 01}") = Raise JSONDecodeError
  /\ json_loads cpython_defaults (pyq "[[]] x") = Raise JSONDecodeError
  /\ json_loads cpython_defaults (pyq " [1e5, -0, 0.0] ")
     = Ok (VList [VFloat (FDec false 1 5); VInt 0; VFloat (FDec false 0 (-1))]).
Proof. vm_compute. repeat split; reflexivity. Qed.

Example ask_for_api_keys_ex1 :
  ask_for_api_keys (py "  one,two , ,") = [py "one"; py "two"].
Proof. vm_compute. reflexivity. Qed.

Example extract_innertube_api_key_ex1 :
  extract_innertube_api_key cpython_defaults
    (pyq "<script>ytcfg.set({'A': {'b': 1}, 'INNERTUBE_API_KEY': 7, 'c': []}) ;</script>")
  = Ok (VInt 7).
Proof. vm_compute. reflexivity. Qed.

(** ** The matcher *)

Lemma lit_match_app (l s : str) : lit_match l (l ++ s) = Some s.
Proof.
  induction l as [|c l IH]; simpl.
  - reflexivity.
  - rewrite N.eqb_refl. exact IH.
Qed.

Lemma lit_match_inv (l s s' : str) :
  lit_match l s = Some s' -> s = l ++ s'.
Proof.
  revert s; induction l as [|c l IH]; intros s H; simpl in *.
  - congruence.
  - destruct s as [|d s]; [discriminate|].
    destruct (c =? d) eqn:E; [|discriminate].
    apply N.eqb_eq in E; subst d. f_equal. apply IH, H.
Qed.

Section MatcherLemmas.
Context {A : Type}.
Variable p : char -> bool.
Variable k : str -> option A.

Lemma star_greedy_inv (s : str) (a : A) :
  star_greedy p s k = Some a ->
  exists pre s', s = pre ++ s' /\ forallb p pre = true /\ k s' = Some a.
Proof.
  induction s as [|c s IH]; simpl; intros H.
  - exists [], []. auto.
  - destruct (p c) eqn:Pc.
    + destruct (star_greedy p s k) as [a'|] eqn:E.
      * injection H as <-. destruct (IH eq_refl) as (pre & s' & -> & Hp & Hk).
        exists (c :: pre), s'. simpl. rewrite Pc, Hp. auto.
      * exists [], (c :: s). auto.
    + exists [], (c :: s). auto.
Qed.

Lemma plus_greedy_inv (s : str) (a : A) :
  plus_greedy p s k = Some a ->
  exists pre s',
    s = pre ++ s' /\ pre <> [] /\ forallb p pre = true /\ k s' = Some a.
Proof.
  destruct s as [|c s]; simpl; [discriminate|].
  destruct (p c) eqn:Pc; [|discriminate].
  intros H. apply star_greedy_inv in H as (pre & s' & -> & Hp & Hk).
  exists (c :: pre), s'. simpl. rewrite Pc, Hp. repeat split; auto.
  discriminate.
Qed.

Lemma plus_lazy_inv (s : str) (a : A) :
  plus_lazy p s k = Some a ->
  exists pre s',
    s = pre ++ s' /\ pre <> [] /\ forallb p pre = true /\ k s' = Some a.
Proof.
  induction s as [|c s IH]; simpl; [discriminate|].
  destruct (p c) eqn:Pc; [|discriminate].
  destruct (k s) as [a'|] eqn:E; intros H.
  - injection H as <-. exists [c], s. simpl. rewrite Pc.
    repeat split; auto. discriminate.
  - destruct (IH H) as (pre & s' & -> & _ & Hp & Hk).
    exists (c :: pre), s'. simpl. rewrite Pc, Hp. repeat split; auto.
    discriminate.
Qed.

(** A greedy star followed by something that cannot start with a
    character of the class takes the whole run. *)
Lemma star_greedy_run (ws s : str) :
  forallb p ws = true ->
  (forall c r, p c = true -> k (c :: r) = None) ->
  match s with c :: _ => p c = false | [] => True end ->
  star_greedy p (ws ++ s) k = k s.
Proof.
  intros Hws Hk Hs. induction ws as [|w ws IH]; simpl in *.
  - destruct s as [|c r]; simpl; [reflexivity|]. now rewrite Hs.
  - apply andb_prop in Hws as [Hw Hws]. rewrite Hw, (IH Hws).
    destruct (k s) eqn:E; [reflexivity|]. now apply Hk.
Qed.

Lemma plus_greedy_run (ws s : str) :
  ws <> [] ->
  forallb p ws = true ->
  (forall c r, p c = true -> k (c :: r) = None) ->
  match s with c :: _ => p c = false | [] => True end ->
  plus_greedy p (ws ++ s) k = k s.
Proof.
  intros Hne Hws Hk Hs. destruct ws as [|w ws]; [congruence|].
  simpl in *. apply andb_prop in Hws as [Hw Hws]. rewrite Hw.
  now apply star_greedy_run.
Qed.

(** The lazy plus stops at the first place where the rest matches. *)
Lemma plus_lazy_first (body rest : str) (a : A) :
  body <> [] ->
  forallb p body = true ->
  k rest = Some a ->
  (forall b1 b2, b1 <> [] -> b2 <> [] -> body = b1 ++ b2 ->
                 k (b2 ++ rest) = None) ->
  plus_lazy p (body ++ rest) k = Some a.
Proof.
  revert a. induction body as [|c body IH]; intros a Hne Hp Hk Hmin.
  - congruence.
  - simpl in *. apply andb_prop in Hp as [Hc Hp]. rewrite Hc.
    destruct body as [|c' body'].
    + simpl. now rewrite Hk.
    + rewrite (Hmin [c] (c' :: body')); try discriminate; try reflexivity.
      apply IH; auto; try discriminate.
      intros b1 b2 H1 H2 E. apply (Hmin (c :: b1) b2); try discriminate; auto.
      simpl. now rewrite E.
Qed.

End MatcherLemmas.

Lemma re_search_here (r : regex) (s : str) (m : Match) :
  re_match_at r s = Some m -> re_search r s = Some m.
Proof. intros H. destruct s; simpl; now rewrite H. Qed.

(** [re.search] passes over the positions where the pattern does not
    match. *)
Lemma re_search_skip (r : regex) (pre s : str) :
  (forall p1 p2, pre = p1 ++ p2 -> p2 <> [] ->
                 re_match_at r (p2 ++ s) = None) ->
  re_search r (pre ++ s) = re_search r s.
Proof.
  induction pre as [|c pre IH]; intros H.
  - reflexivity.
  - assert (H0 := H [] (c :: pre) eq_refl ltac:(discriminate)).
    simpl in *. rewrite H0.
    apply IH. intros p1 p2 -> Hne. now apply (H (c :: p1) p2).
Qed.

Lemma matches_inside_false (r : regex) (pre s : str) :
  matches_inside r pre s = false ->
  forall p1 p2, pre = p1 ++ p2 -> p2 <> [] -> re_match_at r (p2 ++ s) = None.
Proof.
  induction pre as [|c pre IH]; intros H p1 p2 E Hne.
  - destruct p1, p2; try discriminate. congruence.
  - simpl in H.
    destruct (re_match_at r (c :: pre ++ s)) eqn:M; [discriminate|].
    destruct p1 as [|c1 p1]; simpl in E.
    + subst p2. exact M.
    + injection E as -> ->. now apply (IH H p1).
Qed.

Lemma re_search_inv (r : regex) (s : str) (m : Match) :
  re_search r s = Some m ->
  exists pre s', s = pre ++ s' /\ re_match_at r s' = Some m.
Proof.
  induction s as [|c s IH]; simpl.
  - destruct (re_match_at r []) eqn:E; [|discriminate].
    intros [= <-]. exists [], []. auto.
  - destruct (re_match_at r (c :: s)) eqn:E.
    + intros [= <-]. exists [], (c :: s). auto.
    + intros H. destruct (IH H) as (pre & s' & -> & Hm).
      exists (c :: pre), s'. auto.
Qed.

Lemma firstn_consumed (v s : str) :
  firstn (List.length (v ++ s) - List.length s) (v ++ s) = v.
Proof.
  rewrite length_app.
  replace (List.length v + List.length s - List.length s)%nat
    with (List.length v + 0)%nat by lia.
  rewrite firstn_app_2. simpl. apply app_nil_r.
Qed.

(** ** The direct literal *)

(** Whatever the first pattern captures is a non-empty run of characters
    other than the double quote. *)
Lemma string_pattern_group (key s : str) (m : Match) :
  re_match_at (string_pattern key) s = Some m ->
  exists v, group1 m = Some v /\ v <> [] /\ forallb not_dquote v = true.
Proof.
  unfold re_match_at, string_pattern. cbn [rmatch].
  destruct (lit_match _ s) as [s1|]; [|discriminate].
  intros H. apply star_greedy_inv in H as (ws1 & s2 & -> & _ & H).
  destruct (lit_match [colon] s2) as [s3|]; [|discriminate].
  apply star_greedy_inv in H as (ws2 & s4 & -> & _ & H).
  destruct (lit_match [dquote] s4) as [s5|]; [|discriminate].
  apply plus_greedy_inv in H as (v & s6 & -> & Hne & Hv & H).
  destruct (lit_match [dquote] s6) as [s7|]; [|discriminate].
  injection H as <-. exists v. cbn [group1].
  rewrite firstn_consumed. auto.
Qed.

Lemma extract_string_nonempty (key text v : str) :
  extract_string key text = Some v ->
  v <> [] /\ forallb not_dquote v = true.
Proof.
  unfold extract_string.
  destruct (re_search _ text) as [m|] eqn:E; [|discriminate].
  apply re_search_inv in E as (pre & s' & _ & E).
  apply string_pattern_group in E as (v' & Hg & Hne & Hq).
  intros H. rewrite Hg in H. injection H as <-. auto.
Qed.

Lemma is_space_not_colon (c : char) : is_space c = true -> (colon =? c) = false.
Proof.
  intros H. apply N.eqb_neq. intros <-. discriminate.
Qed.

Lemma is_space_not_dquote (c : char) :
  is_space c = true -> (dquote =? c) = false.
Proof.
  intros H. apply N.eqb_neq. intros <-. discriminate.
Qed.

Lemma string_pattern_at_literal (key ws1 ws2 value post : str) :
  forallb is_space ws1 = true ->
  forallb is_space ws2 = true ->
  value <> [] ->
  forallb not_dquote value = true ->
  re_match_at (string_pattern key)
    (direct_literal key ws1 ws2 value ++ post)
  = Some {| group1 := Some value |}.
Proof.
  intros H1 H2 Hne Hv.
  unfold re_match_at, string_pattern, direct_literal. cbn [rmatch].
  rewrite <- !app_assoc, lit_match_app.
  rewrite <- app_comm_cons.
  rewrite star_greedy_run; auto.
  2:{ intros c r Hc. cbn [lit_match]. now rewrite is_space_not_colon. }
  cbn [lit_match]. rewrite N.eqb_refl.
  rewrite <- !app_assoc, <- app_comm_cons.
  rewrite star_greedy_run; auto.
  2:{ intros c r Hc. cbn [lit_match]. now rewrite is_space_not_dquote. }
  cbn [lit_match]. rewrite N.eqb_refl.
  rewrite <- !app_assoc.
  rewrite plus_greedy_run; auto.
  - cbn [lit_match app]. rewrite N.eqb_refl.
    change (dquote :: post) with ([dquote] ++ post).
    now rewrite firstn_consumed.
  - intros c r Hc. cbn [lit_match]. unfold not_dquote in Hc.
    rewrite N.eqb_sym. now destruct (c =? dquote).
  - reflexivity.
Qed.

(** What [extract_string] returns stands in the text, between double
    quotes, after the quoted key and the colon. *)
Lemma extract_string_shape (key text v : str) :
  extract_string key text = Some v ->
  exists pre ws1 ws2 post,
    text = pre ++ direct_literal key ws1 ws2 v ++ post
    /\ forallb is_space ws1 = true
    /\ forallb is_space ws2 = true
    /\ v <> []
    /\ forallb not_dquote v = true.
Proof.
  unfold extract_string.
  destruct (re_search _ text) as [m|] eqn:E; [|discriminate].
  apply re_search_inv in E as (pre & s & -> & E). intros Hg.
  revert E. unfold re_match_at, string_pattern. cbn [rmatch].
  destruct (lit_match _ s) as [s1|] eqn:L1; [|discriminate].
  apply lit_match_inv in L1. subst s.
  intros H. apply star_greedy_inv in H as (ws1 & s2 & -> & Hw1 & H).
  destruct (lit_match [colon] s2) as [s3|] eqn:L2; [|discriminate].
  apply lit_match_inv in L2. subst s2.
  apply star_greedy_inv in H as (ws2 & s4 & -> & Hw2 & H).
  destruct (lit_match [dquote] s4) as [s5|] eqn:L3; [|discriminate].
  apply lit_match_inv in L3. subst s4.
  apply plus_greedy_inv in H as (v' & s6 & -> & Hne & Hv & H).
  destruct (lit_match [dquote] s6) as [s7|] eqn:L4; [|discriminate].
  apply lit_match_inv in L4. subst s6.
  injection H as <-. cbn [group1] in Hg. rewrite firstn_consumed in Hg.
  injection Hg as ->.
  exists pre, ws1, ws2, s7. repeat split; auto.
  unfold direct_literal. simpl.
  repeat (rewrite <- app_assoc; simpl). reflexivity.
Qed.

(** The first direct literal of a text decides [extract_string]. *)
Lemma extract_string_first_literal (key pre ws1 ws2 value post : str) :
  forallb is_space ws1 = true ->
  forallb is_space ws2 = true ->
  value <> [] ->
  forallb not_dquote value = true ->
  (forall p1 p2, pre = p1 ++ p2 -> p2 <> [] ->
     re_match_at (string_pattern key)
       (p2 ++ direct_literal key ws1 ws2 value ++ post) = None) ->
  extract_string key (pre ++ direct_literal key ws1 ws2 value ++ post)
  = Some value.
Proof.
  intros H1 H2 Hne Hv Hfirst. unfold extract_string.
  rewrite re_search_skip by exact Hfirst.
  rewrite (re_search_here _ _ _
             (string_pattern_at_literal key ws1 ws2 value post H1 H2 Hne Hv)).
  reflexivity.
Qed.

(** ** The embedded-object construct *)

Lemma star_greedy_lstrip {A : Type} (k : str -> option A) (s : str) :
  (forall c r, is_space c = true -> k (c :: r) = None) ->
  star_greedy is_space s k = k (lstrip s).
Proof.
  intros Hk. induction s as [|c s IH]; simpl.
  - reflexivity.
  - destruct (is_space c) eqn:Hc; [|reflexivity].
    rewrite IH. destruct (k (lstrip s)); [reflexivity|]. now apply Hk.
Qed.

Lemma lit1_space (x c : char) (r : str) :
  is_space x = false -> is_space c = true -> lit_match [x] (c :: r) = None.
Proof.
  intros Hx Hc. simpl. destruct (x =? c) eqn:E; [|reflexivity].
  apply N.eqb_eq in E. congruence.
Qed.

Lemma after_brace_spec {A : Type} (s : str) (g : option str)
  (K : str -> option str -> option A) :
  rmatch after_brace s g K =
  match lstrip s with
  | c2 :: s2 =>
      if c2 =? 41 then
        match lstrip s2 with
        | c3 :: s3 => if c3 =? 59 then K s3 g else None
        | [] => None
        end
      else None
  | [] => None
  end.
Proof.
  unfold after_brace. cbn [rmatch].
  rewrite star_greedy_lstrip.
  2:{ intros c r Hc. cbv beta. cbn [rmatch]. now rewrite lit1_space. }
  destruct (lstrip s) as [|c2 s2]; [reflexivity|].
  change (lit_match [41] (c2 :: s2)) with (if 41 =? c2 then Some s2 else None).
  rewrite (N.eqb_sym 41 c2).
  destruct (c2 =? 41); [|reflexivity].
  rewrite star_greedy_lstrip.
  2:{ intros c r Hc. cbv beta. cbn [rmatch]. now rewrite lit1_space. }
  destruct (lstrip s2) as [|c3 s3]; [reflexivity|].
  cbn [lit_match]. rewrite (N.eqb_sym 59 c3).
  now destruct (c3 =? 59).
Qed.

Lemma closes_at_false {A : Type} (s : str) (G : str -> option str)
  (K : str -> option str -> option A) :
  closes_at s = false ->
  match lit_match [125] s with
  | Some s' => rmatch after_brace s' (G s') K
  | None => None
  end = None.
Proof.
  intros H. destruct s as [|c s1]; [reflexivity|].
  cbn [lit_match closes_at] in *. rewrite (N.eqb_sym 125 c).
  destruct (c =? 125); [|reflexivity]. simpl in H.
  rewrite after_brace_spec.
  destruct (lstrip s1) as [|c2 s2]; [reflexivity|].
  destruct (c2 =? 41); [|reflexivity]. simpl in H.
  destruct (lstrip s2) as [|c3 s3]; [reflexivity|].
  now rewrite H.
Qed.

Lemma lstrip_run (ws s : str) :
  forallb is_space ws = true ->
  match s with c :: _ => is_space c = false | [] => True end ->
  lstrip (ws ++ s) = s.
Proof.
  intros Hws Hs. induction ws as [|w ws IH]; simpl in *.
  - destruct s as [|c r]; [reflexivity|]. simpl. now rewrite Hs.
  - apply andb_prop in Hws as [Hw Hws]. rewrite Hw. auto.
Qed.

Lemma ytcfg_at_construct (ws1 body ws2 ws3 post : str) :
  body <> [] ->
  forallb is_space ws1 = true ->
  forallb is_space ws2 = true ->
  forallb is_space ws3 = true ->
  (forall b1 b2, body = b1 ++ b2 -> b1 <> [] -> b2 <> [] ->
     closes_at (b2 ++ 125 :: construct_tail ws2 ws3 ++ post) = false) ->
  re_match_at ytcfg_pattern
    (embedded_construct ws1 (123 :: body ++ [125]) ws2 ws3 ++ post)
  = Some {| group1 := Some (123 :: body ++ [125]) |}.
Proof.
  intros Hne H1 H2 H3 Hmin.
  unfold re_match_at, ytcfg_pattern, embedded_construct.
  change (Star is_space +++ Lit [41] +++ Star is_space +++ Lit [59])%re
    with after_brace.
  cbn [rmatch].
  rewrite <- !app_assoc, lit_match_app.
  rewrite <- app_comm_cons.
  rewrite star_greedy_run; auto.
  2:{ intros c r Hc. cbv beta. cbn [rmatch]. now rewrite lit1_space. }
  cbn [lit_match]. rewrite N.eqb_refl.
  rewrite <- !app_assoc.
  apply plus_lazy_first; auto.
  - clear. induction body; simpl; auto.
  - cbn [app]. rewrite N.eqb_refl, after_brace_spec.
    unfold construct_tail. rewrite <- !app_assoc, <- app_comm_cons.
    rewrite lstrip_run by (auto; reflexivity).
    rewrite N.eqb_refl, <- app_assoc, lstrip_run by (auto; reflexivity).
    cbn [app]. rewrite N.eqb_refl.
    replace (123 :: body ++ 125 :: ws2 ++ 41 :: ws3 ++ 59 :: post)
      with ((123 :: body ++ [125]) ++ ws2 ++ 41 :: ws3 ++ 59 :: post)
      by (simpl; now rewrite <- app_assoc).
    now rewrite firstn_consumed.
  - intros b1 b2 Hb1 Hb2 E.
    set (whole := 123 :: body ++ [125] ++ construct_tail ws2 ws3 ++ post).
    apply (closes_at_false
             (b2 ++ [125] ++ construct_tail ws2 ws3 ++ post)
             (fun s' => Some (firstn (List.length whole - List.length s')
                                whole))).
    now apply (Hmin b1 b2).
Qed.

Lemma closes_inside_false (body tail : str) :
  closes_inside body tail = false ->
  forall b1 b2, body = b1 ++ b2 -> b2 <> [] -> closes_at (b2 ++ tail) = false.
Proof.
  induction body as [|c body IH]; intros H b1 b2 E Hne.
  - destruct b1, b2; try discriminate. congruence.
  - cbn [closes_inside] in H. apply orb_false_elim in H as [H0 H].
    destruct b1 as [|c1 b1]; simpl in E.
    + subst b2. exact H0.
    + injection E as -> ->. now apply (IH H b1).
Qed.

(** ** extract_innertube_api_key *)

Lemma extract_direct (I : interp) (html v : str) :
  extract_string INNERTUBE_API_KEY html = Some v ->
  extract_innertube_api_key I html = Ok (VStr v).
Proof.
  intros H. unfold extract_innertube_api_key. rewrite H.
  destruct v as [|c k]; [|reflexivity].
  apply extract_string_nonempty in H as [H _]. congruence.
Qed.


(** Neither pattern in the text: absent. *)
Lemma extract_neither_pattern (I : interp) (html : str) :
  extract_string INNERTUBE_API_KEY html = None ->
  re_search ytcfg_pattern html = None ->
  extract_innertube_api_key I html = Ok VNone.
Proof.
  intros H1 H2. unfold extract_innertube_api_key. now rewrite H1, H2.
Qed.

(** A captured span that [json.loads] refuses: absent. *)
Lemma extract_bad_json (I : interp) (html span : str) (m : Match) (e : exn) :
  extract_string INNERTUBE_API_KEY html = None ->
  re_search ytcfg_pattern html = Some m ->
  group1 m = Some span ->
  json_loads I span = Raise e ->
  extract_innertube_api_key I html = Ok VNone.
Proof.
  intros H1 H2 H3 H4. unfold extract_innertube_api_key.
  rewrite H1, H2, H3. simpl. now rewrite H4.
Qed.




(** C2, as amended.  A text whose first direct literal has a non-empty
    value without double quotes, whitespace around the colon allowed,
    and in which the embedded-object pattern finds a construct, wherever
    it stands: the extractor returns the value of that literal. *)
Theorem direct_literal_takes_precedence
  (I : interp) (pre ws1 ws2 value post : str) (m : Match) :
  forallb is_space ws1 = true ->
  forallb is_space ws2 = true ->
  value <> [] ->
  forallb not_dquote value = true ->
  (forall p1 p2, pre = p1 ++ p2 -> p2 <> [] ->
     re_match_at (string_pattern INNERTUBE_API_KEY)
       (p2 ++ direct_literal INNERTUBE_API_KEY ws1 ws2 value ++ post)
     = None) ->
  re_search ytcfg_pattern
    (pre ++ direct_literal INNERTUBE_API_KEY ws1 ws2 value ++ post)
  = Some m ->
  extract_innertube_api_key I
    (pre ++ direct_literal INNERTUBE_API_KEY ws1 ws2 value ++ post)
  = Ok (VStr value).
Proof.
  intros H1 H2 Hne Hv Hfirst _.
  apply extract_direct. now apply extract_string_first_literal.
Qed.

Lemma direct_literal_takes_precedence_witness :
  page_both
  = pyq "ytcfg.set({'INNERTUBE\u005fAPI_KEY': 'from-object'}); var c = {"
    ++ direct_literal INNERTUBE_API_KEY [] [32] (py "from-literal")
    ++ py "};"
  /\ re_search ytcfg_pattern page_both
     = Some {| group1 :=
                 Some (pyq "{'INNERTUBE\u005fAPI_KEY': 'from-object'}") |}
  /\ json_loads cpython_defaults
       (pyq "{'INNERTUBE\u005fAPI_KEY': 'from-object'}")
     = Ok (VDict [(INNERTUBE_API_KEY, VStr (py "from-object"))])
  /\ extract_innertube_api_key cpython_defaults
       (pyq "ytcfg.set({'INNERTUBE\u005fAPI_KEY': 'from-object'}); var c = {"
        ++ direct_literal INNERTUBE_API_KEY [] [32] (py "from-literal")
        ++ py "};")
     = Ok (VStr (py "from-literal")).
Proof.
  split; [vm_compute; reflexivity|].
  split; [vm_compute; reflexivity|].
  split; [vm_compute; reflexivity|].
  apply (direct_literal_takes_precedence cpython_defaults _ _ _ _ _
           {| group1 :=
                Some (pyq "{'INNERTUBE\u005fAPI_KEY': 'from-object'}") |}).
  - reflexivity.
  - reflexivity.
  - discriminate.
  - reflexivity.
  - apply matches_inside_false. vm_compute. reflexivity.
  - vm_compute. reflexivity.
Defined.

(** C2 as stated fails on a literal with the empty value: the text holds
    the literal and, after it, a construct; the pattern of the literal
    wants one character at least, so the construct decides and its value
    is returned, not the empty value of the literal.  And of two
    literals before a construct the first is returned, not any. *)
Lemma empty_literal_yields_to_object :
  page_empty_literal_then_object
  = direct_literal INNERTUBE_API_KEY [] [32] [] ++ [32] ++
    embedded_construct []
      (pyq "{'INNERTUBE\u005fAPI_KEY': 'from-object'}") [] []
  /\ extract_innertube_api_key cpython_defaults
       page_empty_literal_then_object
     = Ok (VStr (py "from-object"))
  /\ page_two_literals_then_object
     = pyq "'INNERTUBE_API_KEY':'first' " ++
       direct_literal INNERTUBE_API_KEY [] [] (py "second") ++ [32] ++
       embedded_construct []
         (pyq "{'INNERTUBE\u005fAPI_KEY': 'from-object'}") [] []
  /\ extract_innertube_api_key cpython_defaults
       page_two_literals_then_object
     = Ok (VStr (py "first")).
Proof. vm_compute. repeat split; reflexivity. Qed.

(** C3 at its failing input: the object stores a number under the key
    and the extractor hands the number back, which is neither a string
    nor the absence of one. *)
Theorem extractor_returns_non_string :
  extract_innertube_api_key cpython_defaults page_int_key = Ok (VInt 5)
  /\ ~ string_or_absent
       (extract_innertube_api_key cpython_defaults page_int_key).
Proof.
  assert (E : extract_innertube_api_key cpython_defaults page_int_key
              = Ok (VInt 5)) by (vm_compute; reflexivity).
  split; [exact E|]. rewrite E. intros [H|(k & H)]; discriminate.
Qed.

(** C4, as amended.  A text whose first direct literal has a non-empty
    value without double quotes, whitespace around the colon allowed,
    and in which the embedded-object pattern finds nothing: the
    extractor returns exactly that value, whatever stands around the
    literal. *)
Theorem direct_literal_extracted
  (I : interp) (pre ws1 ws2 value post : str) :
  forallb is_space ws1 = true ->
  forallb is_space ws2 = true ->
  value <> [] ->
  forallb not_dquote value = true ->
  (forall p1 p2, pre = p1 ++ p2 -> p2 <> [] ->
     re_match_at (string_pattern INNERTUBE_API_KEY)
       (p2 ++ direct_literal INNERTUBE_API_KEY ws1 ws2 value ++ post)
     = None) ->
  re_search ytcfg_pattern
    (pre ++ direct_literal INNERTUBE_API_KEY ws1 ws2 value ++ post) = None ->
  extract_innertube_api_key I
    (pre ++ direct_literal INNERTUBE_API_KEY ws1 ws2 value ++ post)
  = Ok (VStr value).
Proof.
  intros H1 H2 Hne Hv Hfirst _.
  apply extract_direct. now apply extract_string_first_literal.
Qed.

Lemma direct_literal_extracted_witness :
  pyq "<html>var k = {'INNERTUBE_API_KEY' :  'AIza-1', 'x': 'y'};</html>"
  = py "<html>var k = {" ++
    direct_literal INNERTUBE_API_KEY [32] [32; 32] (py "AIza-1") ++
    pyq ", 'x': 'y'};</html>"
  /\ extract_innertube_api_key cpython_defaults
       (py "<html>var k = {" ++
        direct_literal INNERTUBE_API_KEY [32] [32; 32] (py "AIza-1") ++
        pyq ", 'x': 'y'};</html>")
     = Ok (VStr (py "AIza-1")).
Proof.
  split; [vm_compute; reflexivity|].
  apply direct_literal_extracted.
  - reflexivity.
  - reflexivity.
  - discriminate.
  - reflexivity.
  - apply matches_inside_false. vm_compute. reflexivity.
  - vm_compute. reflexivity.
Defined.

(** C4 as stated fails on a literal with the empty value, which holds no
    double quote: the pattern wants one character at least and the
    extractor returns absent, not the empty value.  And of two literals
    the first is returned, not any. *)
Lemma empty_literal_is_missed :
  direct_literal INNERTUBE_API_KEY [] [32] []
  = pyq "'INNERTUBE_API_KEY': ''"
  /\ re_search ytcfg_pattern (direct_literal INNERTUBE_API_KEY [] [32] [])
     = None
  /\ extract_innertube_api_key cpython_defaults
       (direct_literal INNERTUBE_API_KEY [] [32] [])
     = Ok VNone
  /\ page_two_literals
     = pyq "'INNERTUBE_API_KEY':'first' " ++
       direct_literal INNERTUBE_API_KEY [] [] (py "second")
  /\ extract_innertube_api_key cpython_defaults page_two_literals
     = Ok (VStr (py "first")).
Proof. vm_compute. repeat split; reflexivity. Qed.

Lemma empty_object_has_no_key (I : interp) (d : list (str * value)) (v : value) :
  json_loads I [123; 125] = Ok (VDict d) ->
  dict_get d INNERTUBE_API_KEY = Some v -> False.
Proof.
  destruct I as [[|n] k]; cbn; [discriminate|].
  intros [= <-]. discriminate.
Qed.

(** C5, as amended.  A text without direct literal, whose first match of
    the embedded-object pattern is a construct around the object literal
    [{body}], where no closing brace inside the literal is followed by
    optional whitespace, a closing parenthesis, optional whitespace and
    a semicolon: if the literal parses to a mapping that stores the
    string [value] under the key, the extractor returns [value]. *)
Theorem embedded_object_extracted
  (I : interp) (pre ws1 body ws2 ws3 post : str)
  (d : list (str * value)) (value : str) :
  extract_string INNERTUBE_API_KEY
    (pre ++ embedded_construct ws1 (123 :: body ++ [125]) ws2 ws3 ++ post)
  = None ->
  forallb is_space ws1 = true ->
  forallb is_space ws2 = true ->
  forallb is_space ws3 = true ->
  json_loads I (123 :: body ++ [125]) = Ok (VDict d) ->
  dict_get d INNERTUBE_API_KEY = Some (VStr value) ->
  (forall p1 p2, pre = p1 ++ p2 -> p2 <> [] ->
     re_match_at ytcfg_pattern
       (p2 ++ embedded_construct ws1 (123 :: body ++ [125]) ws2 ws3 ++ post)
     = None) ->
  (forall b1 b2, body = b1 ++ b2 -> b1 <> [] -> b2 <> [] ->
     closes_at (b2 ++ 125 :: construct_tail ws2 ws3 ++ post) = false) ->
  extract_innertube_api_key I
    (pre ++ embedded_construct ws1 (123 :: body ++ [125]) ws2 ws3 ++ post)
  = Ok (VStr value).
Proof.
  intros Hlit H1 H2 H3 HJ HD Hfirst Hmin.
  assert (Hne : body <> []).
  { intros ->. exact (empty_object_has_no_key I d _ HJ HD). }
  unfold extract_innertube_api_key. rewrite Hlit.
  rewrite re_search_skip by exact Hfirst.
  rewrite (re_search_here _ _ _
             (ytcfg_at_construct ws1 body ws2 ws3 post Hne H1 H2 H3 Hmin)).
  cbn [group1 json_loads_group]. rewrite HJ. simpl. now rewrite HD.
Qed.

Lemma closes_inside_tail_false (body tail : str) :
  closes_inside (tl body) tail = false ->
  forall b1 b2, body = b1 ++ b2 -> b1 <> [] -> b2 <> [] ->
                closes_at (b2 ++ tail) = false.
Proof.
  intros H b1 b2 E H1 H2. destruct b1 as [|c b1]; [congruence|].
  subst body. simpl in H. now apply (closes_inside_false _ _ H b1).
Qed.

Lemma embedded_object_extracted_witness :
  page_escaped_key
  = py "<script>" ++
    embedded_construct [32]
      (123 :: pyq "'INNERTUBE\u005fAPI_KEY': 'AIzaSy', 'n': {'m': 1}" ++ [125])
      [32] [] ++
    py "</script>"
  /\ extract_string INNERTUBE_API_KEY page_escaped_key = None
  /\ extract_innertube_api_key cpython_defaults
       (py "<script>" ++
        embedded_construct [32]
          (123 :: pyq "'INNERTUBE\u005fAPI_KEY': 'AIzaSy', 'n': {'m': 1}"
               ++ [125])
          [32] [] ++
        py "</script>")
     = Ok (VStr (py "AIzaSy")).
Proof.
  split; [vm_compute; reflexivity|].
  split; [vm_compute; reflexivity|].
  apply (embedded_object_extracted cpython_defaults _ _ _ _ _ _
           [(INNERTUBE_API_KEY, VStr (py "AIzaSy"));
            (py "n", VDict [(py "m", VInt 1)])]).
  - vm_compute. reflexivity.
  - reflexivity.
  - reflexivity.
  - reflexivity.
  - vm_compute. reflexivity.
  - reflexivity.
  - apply matches_inside_false. vm_compute. reflexivity.
  - apply closes_inside_tail_false. vm_compute. reflexivity.
Defined.

(** C5 as stated fails: the object literal of this construct parses to a
    mapping that stores a string under the key, and the text has no
    direct literal, but the lazy scan of the pattern ends the span at
    the brace inside the first string, and what it captured does not
    parse. *)
Lemma embedded_object_cut_short :
  page_brace_in_string
  = embedded_construct []
      (pyq "{'a':'});','INNERTUBE\u005fAPI_KEY':'v'}") [] []
  /\ extract_string INNERTUBE_API_KEY page_brace_in_string = None
  /\ json_loads cpython_defaults
       (pyq "{'a':'});','INNERTUBE\u005fAPI_KEY':'v'}")
     = Ok (VDict [(py "a", VStr (py "});"));
                  (INNERTUBE_API_KEY, VStr (py "v"))])
  /\ re_search ytcfg_pattern page_brace_in_string
     = Some {| group1 := Some (pyq "{'a':'}") |}
  /\ extract_innertube_api_key cpython_defaults page_brace_in_string
     = Ok VNone.
Proof. vm_compute. repeat split; reflexivity. Qed.

(** C10, as amended.  In a text without direct literal, if the span
    captured by the first match of the embedded-object pattern does not
    parse, the extractor returns absent; no later construct is tried. *)
Theorem only_first_construct_considered
  (I : interp) (html span : str) (m : Match) (e : exn) :
  extract_string INNERTUBE_API_KEY html = None ->
  re_search ytcfg_pattern html = Some m ->
  group1 m = Some span ->
  json_loads I span = Raise e ->
  extract_innertube_api_key I html = Ok VNone.
Proof. exact (extract_bad_json I html span m e). Qed.

Lemma only_first_construct_considered_witness :
  extract_string INNERTUBE_API_KEY page_broken_then_valid = None
  /\ re_search ytcfg_pattern page_broken_then_valid
     = Some {| group1 := Some (py "{broken}") |}
  /\ json_loads cpython_defaults (py "{broken}") = Raise JSONDecodeError
  /\ extract_innertube_api_key cpython_defaults
       (pyq "ytcfg.set({'INNERTUBE\u005fAPI_KEY': 'v'});")
     = Ok (VStr (py "v"))
  /\ extract_innertube_api_key cpython_defaults page_broken_then_valid
     = Ok VNone.
Proof.
  assert (H1 : extract_string INNERTUBE_API_KEY page_broken_then_valid = None)
    by (vm_compute; reflexivity).
  assert (H2 : re_search ytcfg_pattern page_broken_then_valid
               = Some {| group1 := Some (py "{broken}") |})
    by (vm_compute; reflexivity).
  assert (H3 : json_loads cpython_defaults (py "{broken}")
               = Raise JSONDecodeError) by (vm_compute; reflexivity).
  split; [exact H1|]. split; [exact H2|]. split; [exact H3|].
  split; [vm_compute; reflexivity|].
  exact (only_first_construct_considered cpython_defaults _ _ _ _
           H1 H2 eq_refl H3).
Defined.

(** C10 as stated fails when the later construct holds the key as a
    plain literal: the first match captures a span that does not parse,
    yet the extractor returns the key, found by the first pattern. *)
Lemma later_literal_is_found :
  re_search ytcfg_pattern page_broken_then_literal
  = Some {| group1 := Some (py "{broken}") |}
  /\ json_loads cpython_defaults (py "{broken}") = Raise JSONDecodeError
  /\ json_loads cpython_defaults (pyq "{'INNERTUBE_API_KEY': 'v'}")
     = Ok (VDict [(INNERTUBE_API_KEY, VStr (py "v"))])
  /\ extract_innertube_api_key cpython_defaults page_broken_then_literal
     = Ok (VStr (py "v")).
Proof. vm_compute. repeat split; reflexivity. Qed.

(** ** get_fresh_innertube_key *)

Lemma source_failed_yields_nothing (I : interp) (o : result response) :
  source_failed o -> yields_nothing I o.
Proof. destruct o; simpl; auto. Qed.

Lemma console_takes_app (con : console) (a b tr : list event) :
  console_takes con tr (a ++ b)
  <-> console_takes con tr a /\ console_takes con (tr ++ a) b.
Proof.
  revert tr. induction a as [|ev a IH]; intros tr; simpl.
  - rewrite app_nil_r. tauto.
  - rewrite IH, <- app_assoc. simpl. tauto.
Qed.

(** An attempt that yields nothing goes on with the next url, when the
    console takes its lines. *)
Lemma probe_skip (I : interp) (net : network) (con : console)
  (hs : list (str * str)) (url : str) (rest : list str) (tr : list event) :
  yields_nothing I (net (tr ++ [Print (MsgTrying url)]) (request_for hs url)) ->
  console_takes con tr
    (attempt_events hs url
       (net (tr ++ [Print (MsgTrying url)]) (request_for hs url))) ->
  probe I net con hs (url :: rest) tr
  = probe I net con hs rest
      (tr ++ attempt_events hs url
               (net (tr ++ [Print (MsgTrying url)]) (request_for hs url))).
Proof.
  cbn [probe]. unfold attempt_events, except_handler.
  destruct (net (tr ++ [Print (MsgTrying url)]) (request_for hs url))
    as [r|e]; simpl; intros H (Ht & _ & Hc); rewrite Ht.
  - rewrite <- !app_assoc. simpl.
    destruct (status_code r =? 200)%Z eqn:S; simpl; [|reflexivity].
    destruct H as [H|(v & -> & Hv)]; [apply Z.eqb_eq in S; congruence|].
    now rewrite Hv.
  - destruct Hc as [Hc _]. rewrite Hc. now rewrite <- !app_assoc.
Qed.

(** An attempt whose body holds a usable key ends the loop, when the
    console takes its lines. *)
Lemma probe_found (I : interp) (net : network) (con : console)
  (hs : list (str * str)) (url : str) (rest : list str) (tr : list event)
  (r : response) (v : value) :
  net (tr ++ [Print (MsgTrying url)]) (request_for hs url) = Ok r ->
  status_code r = 200%Z ->
  extract_innertube_api_key I (text r) = Ok v ->
  truthy v = true ->
  console_takes con tr
    [Print (MsgTrying url); Get (request_for hs url); Print (MsgFound v)] ->
  probe I net con hs (url :: rest) tr
  = (Ok v, tr ++ [Print (MsgTrying url); Get (request_for hs url);
                  Print (MsgFound v)]).
Proof.
  intros Hn Hs He Hv (Ht & _ & Hf & _). cbn [probe].
  rewrite Ht, Hn, Hs, He, Hv. simpl. rewrite Hf.
  now rewrite <- !app_assoc.
Qed.

Lemma fetched_app (a b : list event) : fetched (a ++ b) = fetched a ++ fetched b.
Proof.
  induction a as [|[m|rq|m] a IH]; simpl; [reflexivity|exact IH| |exact IH].
  now rewrite IH.
Qed.

Lemma fetched_attempt (hs : list (str * str)) (url : str)
  (o : result response) :
  fetched (attempt_events hs url o) = [url].
Proof. destruct o; reflexivity. Qed.

(** C6, as amended.  The first two sources fail, each by an exception of
    [requests.get] or by a status other than 200, the plain-literal
    pattern finds [value] in the body of the third, served with status
    200, and the console takes the lines of the run.  Then the function
    returns [value]; the trace holds one attempt per url, in order, and
    after the request to the third url only the line that shows the
    key.  An exception is reported by a line before the next url is
    tried; a status other than 200 leaves no line. *)
Theorem third_source_wins
  (I : interp) (net : network) (con : console) (user_agent : str)
  (r3 : response) (value : str) :
  let hs := make_headers user_agent in
  let o1 := net [Print (MsgTrying url_tv)] (request_for hs url_tv) in
  let tr1 := attempt_events hs url_tv o1 in
  let o2 :=
    net (tr1 ++ [Print (MsgTrying url_root)]) (request_for hs url_root) in
  let tr2 := tr1 ++ attempt_events hs url_root o2 in
  let tr3 :=
    tr2 ++ [Print (MsgTrying url_embed); Get (request_for hs url_embed);
            Print (MsgFound (VStr value))] in
  source_failed o1 ->
  source_failed o2 ->
  net (tr2 ++ [Print (MsgTrying url_embed)]) (request_for hs url_embed)
  = Ok r3 ->
  status_code r3 = 200%Z ->
  extract_string INNERTUBE_API_KEY (text r3) = Some value ->
  console_takes con [] tr3 ->
  get_fresh_innertube_key I net con user_agent = (Ok (VStr value), tr3)
  /\ fetched (snd (get_fresh_innertube_key I net con user_agent))
     = [url_tv; url_root; url_embed].
Proof.
  intros hs o1 tr1 o2 tr2 tr3 H1 H2 H3 Hs Hv Hc.
  assert (E : get_fresh_innertube_key I net con user_agent
              = (Ok (VStr value), tr3)).
  { unfold tr3 in Hc. apply console_takes_app in Hc as [Hc2 Hc3].
    unfold tr2 in Hc2. apply console_takes_app in Hc2 as [Hc1 Hc2].
    unfold get_fresh_innertube_key, urls_to_try. fold hs.
    rewrite probe_skip;
      [|apply source_failed_yields_nothing; exact H1|exact Hc1].
    cbn [app]. fold o1. fold tr1.
    rewrite probe_skip;
      [|apply source_failed_yields_nothing; exact H2|exact Hc2].
    fold o2. fold tr2.
    apply (probe_found I net con hs url_embed [] tr2 r3); auto.
    - now apply extract_direct.
    - apply extract_string_nonempty in Hv as [Hv _].
      destruct value; [congruence|reflexivity]. }
  split; [exact E|].
  rewrite E. cbn [snd]. unfold tr3, tr2, tr1.
  now rewrite !fetched_app, !fetched_attempt.
Qed.

Lemma third_source_wins_witness :
  source_failed resp_fault
  /\ source_failed resp_503
  /\ extract_string INNERTUBE_API_KEY page_literal = Some (py "AIzaSyTest")
  /\ get_fresh_innertube_key cpython_defaults
       (serve resp_fault resp_503 resp_literal) utf8_console DEFAULT_UA
     = (Ok (VStr (py "AIzaSyTest")),
        [Print (MsgTrying url_tv);
         Get (request_for (make_headers DEFAULT_UA) url_tv);
         Print (MsgError url_tv RequestException);
         Print (MsgTrying url_root);
         Get (request_for (make_headers DEFAULT_UA) url_root);
         Print (MsgTrying url_embed);
         Get (request_for (make_headers DEFAULT_UA) url_embed);
         Print (MsgFound (VStr (py "AIzaSyTest")))])
  /\ fetched (snd (get_fresh_innertube_key cpython_defaults
                     (serve resp_fault resp_503 resp_literal) utf8_console
                     DEFAULT_UA))
     = [url_tv; url_root; url_embed].
Proof.
  assert (H1 : source_failed resp_fault) by exact I.
  assert (H2 : source_failed resp_503) by (simpl; discriminate).
  assert (H3 : extract_string INNERTUBE_API_KEY page_literal
               = Some (py "AIzaSyTest")) by (vm_compute; reflexivity).
  split; [exact H1|]. split; [exact H2|]. split; [exact H3|].
  apply (third_source_wins cpython_defaults
           (serve resp_fault resp_503 resp_literal) utf8_console DEFAULT_UA
           {| status_code := 200; text := page_literal |} (py "AIzaSyTest")
           H1 H2 eq_refl eq_refl H3).
  vm_compute. repeat split; reflexivity.
Defined.

(** C6 as stated fails twice.  An exception and a status other than 200
    are not treated alike: after the exception of the first source a
    line reports it, after the status 503 of the second there is none.
    And the probe can be aborted: when the text of the exception cannot
    be printed, here for a lone surrogate on a console that encodes as
    UTF-8, the [print] of the [except] clause raises, the function
    raises with it, and the third source, whose body holds the literal,
    is never asked. *)
Lemma fault_report_differs_and_can_abort :
  snd (get_fresh_innertube_key cpython_defaults
         (serve resp_fault resp_503 resp_literal) utf8_console DEFAULT_UA)
  = [Print (MsgTrying url_tv);
     Get (request_for (make_headers DEFAULT_UA) url_tv);
     Print (MsgError url_tv RequestException);
     Print (MsgTrying url_root);
     Get (request_for (make_headers DEFAULT_UA) url_root);
     Print (MsgTrying url_embed);
     Get (request_for (make_headers DEFAULT_UA) url_embed);
     Print (MsgFound (VStr (py "AIzaSyTest")))]
  /\ source_failed resp_fault_surrogate
  /\ get_fresh_innertube_key cpython_defaults
       (serve resp_fault_surrogate resp_503 resp_literal) utf8_console
       DEFAULT_UA
     = (Raise
          (PyError (py "UnicodeEncodeError")
             (py "'utf-8' codec can't encode character '\udcff' in position 69: surrogates not allowed")),
        [Print (MsgTrying url_tv);
         Get (request_for (make_headers DEFAULT_UA) url_tv);
         PrintRaised
           (MsgError url_tv
              (PyError (py "ProxyError")
                 (py "Cannot connect to proxy " ++ [56575] ++ py ":8080")))]).
Proof. vm_compute. repeat split; reflexivity. Qed.

(** What C7 says holds on a console that takes the lines of the run:
    when every source yields nothing (an exception, a status other than
    200, or a body in which the extractor finds nothing usable), the
    function returns absent and the trace holds one attempt per url, in
    the order tv, root, embed. *)
Lemma all_sources_exhausted
  (I : interp) (net : network) (con : console) (user_agent : str) :
  let hs := make_headers user_agent in
  let o1 := net [Print (MsgTrying url_tv)] (request_for hs url_tv) in
  let tr1 := attempt_events hs url_tv o1 in
  let o2 :=
    net (tr1 ++ [Print (MsgTrying url_root)]) (request_for hs url_root) in
  let tr2 := tr1 ++ attempt_events hs url_root o2 in
  let o3 :=
    net (tr2 ++ [Print (MsgTrying url_embed)]) (request_for hs url_embed) in
  let tr3 := tr2 ++ attempt_events hs url_embed o3 in
  yields_nothing I o1 ->
  yields_nothing I o2 ->
  yields_nothing I o3 ->
  console_takes con [] (tr3 ++ [Print MsgNotFound]) ->
  get_fresh_innertube_key I net con user_agent
  = (Ok VNone, tr3 ++ [Print MsgNotFound])
  /\ fetched (snd (get_fresh_innertube_key I net con user_agent))
     = [url_tv; url_root; url_embed].
Proof.
  intros hs o1 tr1 o2 tr2 o3 tr3 H1 H2 H3 Hc.
  assert (E : get_fresh_innertube_key I net con user_agent
              = (Ok VNone, tr3 ++ [Print MsgNotFound])).
  { apply console_takes_app in Hc as [Hc3 Hc4].
    unfold tr3 in Hc3. apply console_takes_app in Hc3 as [Hc2 Hc3].
    unfold tr2 in Hc2. apply console_takes_app in Hc2 as [Hc1 Hc2].
    unfold get_fresh_innertube_key, urls_to_try. fold hs.
    rewrite probe_skip; [|exact H1|exact Hc1]. cbn [app]. fold o1. fold tr1.
    rewrite probe_skip; [|exact H2|exact Hc2]. fold o2. fold tr2.
    rewrite probe_skip; [|exact H3|exact Hc3]. fold o3. fold tr3.
    cbn [probe]. cbn [app] in Hc4. destruct Hc4 as [-> _]. reflexivity. }
  split; [exact E|]. rewrite E. cbn [snd]. unfold tr3, tr2, tr1.
  now rewrite !fetched_app, !fetched_attempt.
Qed.

Example all_sources_exhausted_ex :
  get_fresh_innertube_key cpython_defaults
    (serve resp_503 resp_no_key resp_fault) utf8_console DEFAULT_UA
  = (Ok VNone,
     attempt_events (make_headers DEFAULT_UA) url_tv resp_503 ++
     attempt_events (make_headers DEFAULT_UA) url_root resp_no_key ++
     attempt_events (make_headers DEFAULT_UA) url_embed resp_fault ++
     [Print MsgNotFound]).
Proof. vm_compute. reflexivity. Qed.

(** C7 at its failing input.  Every source fails to yield a key: the
    first by an exception of [requests.get], the second by the status
    503, the third by a body without key.  The text of the exception
    holds a lone surrogate and the console encodes as UTF-8: the
    [print] of the [except] clause raises [UnicodeEncodeError], which
    nothing catches.  The function raises instead of returning absent,
    and only the first of the three sources has been asked. *)
Theorem exhaustion_raises :
  yields_nothing cpython_defaults resp_fault_surrogate
  /\ yields_nothing cpython_defaults resp_503
  /\ yields_nothing cpython_defaults resp_no_key
  /\ fst (get_fresh_innertube_key cpython_defaults
            (serve resp_fault_surrogate resp_503 resp_no_key) utf8_console
            DEFAULT_UA)
     = Raise
         (PyError (py "UnicodeEncodeError")
            (py "'utf-8' codec can't encode character '\udcff' in position 69: surrogates not allowed"))
  /\ fetched (snd (get_fresh_innertube_key cpython_defaults
                     (serve resp_fault_surrogate resp_503 resp_no_key)
                     utf8_console DEFAULT_UA))
     = [url_tv].
Proof.
  split; [exact I|]. split; [left; simpl; discriminate|].
  split; [right; exists VNone; split; vm_compute; reflexivity|].
  vm_compute. split; reflexivity.
Qed.

(** What the loop does, whatever the server and the console do.  A value
    it returns is absent or passes the test [if key:], and then the
    trace ends with a request and the line that shows the key, the
    response to that request had status 200 and the extractor found the
    value in its body.  An exception that leaves it was raised by the
    [print] of the [except] clause or by the one after the loop. *)
Lemma probe_result (I : interp) (net : network) (con : console)
  (hs : list (str * str)) (urls : list str) :
  forall tr,
  match fst (probe I net con hs urls tr) with
  | Ok v =>
      v = VNone \/
      (truthy v = true /\
       exists tr0 url r,
         In url urls
         /\ snd (probe I net con hs urls tr)
            = tr0 ++ [Get (request_for hs url); Print (MsgFound v)]
         /\ net tr0 (request_for hs url) = Ok r
         /\ status_code r = 200%Z
         /\ extract_innertube_api_key I (text r) = Ok v)
  | Raise e =>
      exists tr0 m,
        snd (probe I net con hs urls tr) = tr0 ++ [PrintRaised m]
        /\ con tr0 m = Some e
        /\ (m = MsgNotFound \/
            exists url e0, In url urls /\ m = MsgError url e0)
  end.
Proof.
  induction urls as [|url rest IH]; intros tr.
  - cbn [probe]. destruct (con tr MsgNotFound) as [e|] eqn:C; cbn [fst snd].
    + exists tr, MsgNotFound. auto.
    + left. reflexivity.
  - assert (Hnext : forall tr2,
      match fst (probe I net con hs rest tr2) with
      | Ok v =>
          v = VNone \/
          (truthy v = true /\
           exists tr0 u r,
             In u (url :: rest)
             /\ snd (probe I net con hs rest tr2)
                = tr0 ++ [Get (request_for hs u); Print (MsgFound v)]
             /\ net tr0 (request_for hs u) = Ok r
             /\ status_code r = 200%Z
             /\ extract_innertube_api_key I (text r) = Ok v)
      | Raise e =>
          exists tr0 m,
            snd (probe I net con hs rest tr2) = tr0 ++ [PrintRaised m]
            /\ con tr0 m = Some e
            /\ (m = MsgNotFound \/
                exists u e0, In u (url :: rest) /\ m = MsgError u e0)
      end).
    { intros tr2. specialize (IH tr2).
      destruct (fst (probe I net con hs rest tr2)) as [v|e].
      - destruct IH as [->|(T & tr0 & u & r & Hu & Hr)]; [now left|].
        right. split; [exact T|]. exists tr0, u, r.
        split; [now right|exact Hr].
      - destruct IH as (tr0 & m & E & C & [->|(u & e0 & Hu & ->)]).
        + exists tr0, MsgNotFound. auto.
        + exists tr0, (MsgError u e0). split; [exact E|]. split; [exact C|].
          right. exists u, e0. split; [now right|reflexivity]. }
    assert (Hhandler : forall e tr2,
      match fst (except_handler con url e tr2 (probe I net con hs rest)) with
      | Ok v =>
          v = VNone \/
          (truthy v = true /\
           exists tr0 u r,
             In u (url :: rest)
             /\ snd (except_handler con url e tr2 (probe I net con hs rest))
                = tr0 ++ [Get (request_for hs u); Print (MsgFound v)]
             /\ net tr0 (request_for hs u) = Ok r
             /\ status_code r = 200%Z
             /\ extract_innertube_api_key I (text r) = Ok v)
      | Raise e' =>
          exists tr0 m,
            snd (except_handler con url e tr2 (probe I net con hs rest))
            = tr0 ++ [PrintRaised m]
            /\ con tr0 m = Some e'
            /\ (m = MsgNotFound \/
                exists u e0, In u (url :: rest) /\ m = MsgError u e0)
      end).
    { intros e tr2. unfold except_handler.
      destruct (con tr2 (MsgError url e)) as [e'|] eqn:C; [|apply Hnext].
      cbn [fst snd]. exists tr2, (MsgError url e).
      split; [reflexivity|]. split; [exact C|].
      right. exists url, e. split; [now left|reflexivity]. }
    cbn [probe].
    destruct (con tr (MsgTrying url)) as [e|] eqn:Ct; [apply Hhandler|].
    destruct (net (tr ++ [Print (MsgTrying url)]) (request_for hs url))
      as [r|e] eqn:N; [|apply Hhandler].
    destruct (status_code r =? 200)%Z eqn:S; cbn [negb]; [|apply Hnext].
    destruct (extract_innertube_api_key I (text r)) as [key|e] eqn:X;
      [|apply Hhandler].
    destruct (truthy key) eqn:T; [|apply Hnext].
    destruct (con _ (MsgFound key)) as [e|] eqn:Cf; [apply Hhandler|].
    cbn [fst snd]. right. split; [exact T|].
    exists (tr ++ [Print (MsgTrying url)]), url, r.
    split; [now left|]. split; [now rewrite <- app_assoc|].
    split; [exact N|]. split; [now apply Z.eqb_eq|exact X].
Qed.

(** What the loop returns is absent or passes the test [if key:]; in
    particular it is never the empty string. *)
Lemma probe_returns_usable (I : interp) (net : network) (con : console)
  (hs : list (str * str)) (urls : list str) (tr : list event) (v : value) :
  fst (probe I net con hs urls tr) = Ok v -> v = VNone \/ truthy v = true.
Proof.
  intros E. pose proof (probe_result I net con hs urls tr) as H.
  rewrite E in H. destruct H as [H|[H _]]; auto.
Qed.

Lemma fresh_key_never_empty_string (I : interp) (net : network)
  (con : console) (user_agent : str) :
  fst (get_fresh_innertube_key I net con user_agent) <> Ok (VStr []).
Proof.
  unfold get_fresh_innertube_key. intros E.
  apply probe_returns_usable in E as [E|E]; discriminate.
Qed.

(** A body whose object stores the empty string under the key counts as
    a miss: the loop goes on to the next source. *)
Lemma empty_key_is_skipped :
  extract_innertube_api_key cpython_defaults page_empty_key = Ok (VStr [])
  /\ fst (get_fresh_innertube_key cpython_defaults
            (serve resp_empty_key resp_literal resp_fault) utf8_console
            DEFAULT_UA)
     = Ok (VStr (py "AIzaSyTest"))
  /\ fetched (snd (get_fresh_innertube_key cpython_defaults
                     (serve resp_empty_key resp_literal resp_fault)
                     utf8_console DEFAULT_UA))
     = [url_tv; url_root].
Proof. vm_compute. repeat split; reflexivity. Qed.

(** A key that cannot be printed is lost: the body of the first source
    stores a lone surrogate under the key, the [print] that shows the
    key raises inside the [try] block, the [except] clause reports it
    and the loop goes on to the next source. *)
Example unprintable_key_is_skipped :
  extract_innertube_api_key cpython_defaults page_surrogate_key
  = Ok (VStr [55357])
  /\ get_fresh_innertube_key cpython_defaults
       (serve resp_surrogate_key resp_literal resp_fault) utf8_console
       DEFAULT_UA
     = (Ok (VStr (py "AIzaSyTest")),
        [Print (MsgTrying url_tv);
         Get (request_for (make_headers DEFAULT_UA) url_tv);
         PrintRaised (MsgFound (VStr [55357]));
         Print (MsgError url_tv
                  (PyError (py "UnicodeEncodeError")
                     (py "'utf-8' codec can't encode character '\ud83d' in position 0: surrogates not allowed")));
         Print (MsgTrying url_root);
         Get (request_for (make_headers DEFAULT_UA) url_root);
         Print (MsgFound (VStr (py "AIzaSyTest")))]).
Proof. vm_compute. split; reflexivity. Qed.

(** C9 at its failing input: the first source answers with an object
    that stores a number under the key; the number passes the test
    [if key:] and is returned, so that the returned key is not a
    string. *)
Theorem fresh_key_non_string :
  fst (get_fresh_innertube_key cpython_defaults
         (serve resp_int_key resp_fault resp_fault) utf8_console DEFAULT_UA)
  = Ok (VInt 5)
  /\ fetched (snd (get_fresh_innertube_key cpython_defaults
                     (serve resp_int_key resp_fault resp_fault) utf8_console
                     DEFAULT_UA))
     = [url_tv].
Proof. vm_compute. repeat split; reflexivity. Qed.

(** ** ask_for_api_keys *)

Lemma lstrip_spaces (ws s : str) :
  forallb is_space ws = true -> lstrip (ws ++ s) = lstrip s.
Proof.
  induction ws as [|w ws IH]; simpl; [reflexivity|].
  intros H. apply andb_prop in H as [Hw H]. rewrite Hw. auto.
Qed.

Lemma lstrip_split (s : str) :
  exists ws, s = ws ++ lstrip s /\ forallb is_space ws = true.
Proof.
  induction s as [|c s (ws & E & H)]; simpl.
  - exists []. auto.
  - destruct (is_space c) eqn:Hc.
    + exists (c :: ws). simpl. rewrite Hc, H. split; [congruence|reflexivity].
    + exists []. auto.
Qed.

Lemma lstrip_app (s t : str) :
  lstrip (s ++ t) = if forallb is_space s then lstrip t else lstrip s ++ t.
Proof.
  induction s as [|c s IH]; simpl; [reflexivity|].
  destruct (is_space c); simpl; [exact IH|reflexivity].
Qed.

Lemma forallb_rev (p : char -> bool) (l : str) :
  forallb p (rev l) = forallb p l.
Proof.
  induction l as [|c l IH]; simpl; [reflexivity|].
  rewrite forallb_app, IH. simpl. rewrite andb_true_r. apply andb_comm.
Qed.

Lemma rstrip_spaces (s ws : str) :
  forallb is_space ws = true -> rstrip (s ++ ws) = rstrip s.
Proof.
  intros H. unfold rstrip. rewrite rev_app_distr, lstrip_spaces; auto.
  now rewrite forallb_rev.
Qed.

Lemma rstrip_split (s : str) :
  exists ws, s = rstrip s ++ ws /\ forallb is_space ws = true.
Proof.
  destruct (lstrip_split (rev s)) as (ws & E & H).
  exists (rev ws). unfold rstrip. split.
  - rewrite <- rev_app_distr, <- E. symmetry. apply rev_involutive.
  - now rewrite forallb_rev.
Qed.

Lemma lstrip_all_spaces (ws : str) :
  forallb is_space ws = true -> lstrip ws = [].
Proof.
  intros H. rewrite <- (app_nil_r ws). now rewrite lstrip_spaces.
Qed.

Lemma strip_spaces_l (ws s : str) :
  forallb is_space ws = true -> strip (ws ++ s) = strip s.
Proof. intros H. unfold strip. now rewrite lstrip_spaces. Qed.

Lemma strip_spaces_r (s ws : str) :
  forallb is_space ws = true -> strip (s ++ ws) = strip s.
Proof.
  intros H. unfold strip. rewrite lstrip_app.
  destruct (forallb is_space s) eqn:Hs.
  - now rewrite (lstrip_all_spaces ws), (lstrip_all_spaces s).
  - now apply rstrip_spaces.
Qed.

Lemma split_nonempty (sep : char) (s : str) : split sep s <> [].
Proof.
  destruct s as [|c s]; simpl; [discriminate|].
  destruct (c =? sep); [discriminate|].
  destruct (split sep s); discriminate.
Qed.

Lemma split_spaces_l (sep : char) (ws s : str) :
  is_space sep = false ->
  forallb is_space ws = true ->
  split sep (ws ++ s) =
  match split sep s with
  | h :: t => (ws ++ h) :: t
  | [] => []
  end.
Proof.
  intros Hsep. induction ws as [|w ws IH]; simpl; intros H.
  - now destruct (split sep s).
  - apply andb_prop in H as [Hw H].
    destruct (w =? sep) eqn:E.
    + apply N.eqb_eq in E. congruence.
    + rewrite (IH H). destruct (split sep s) as [|h t] eqn:S; [|reflexivity].
      now apply split_nonempty in S.
Qed.

Lemma split_spaces_r (sep : char) (s ws : str) :
  is_space sep = false ->
  forallb is_space ws = true ->
  split sep (s ++ ws) = app_last (split sep s) ws.
Proof.
  intros Hsep H. induction s as [|c s IH]; simpl.
  - rewrite <- (app_nil_r ws) at 1. rewrite split_spaces_l; auto.
    simpl. now rewrite app_nil_r.
  - rewrite IH. destruct (c =? sep).
    + destruct (split sep s) as [|h t] eqn:S; [|reflexivity].
      now apply split_nonempty in S.
    + destruct (split sep s) as [|h [|h' t]] eqn:S; try reflexivity.
      now apply split_nonempty in S.
Qed.

Lemma map_strip_app_last (l : list str) (ws : str) :
  forallb is_space ws = true ->
  map strip (app_last l ws) = map strip l.
Proof.
  intros H. induction l as [|h [|h' t] IH]; simpl in *.
  - reflexivity.
  - now rewrite strip_spaces_r.
  - now rewrite IH.
Qed.

Lemma is_space_comma : is_space comma = false.
Proof. reflexivity. Qed.

(** Stripping the whole line first changes nothing once every entry is
    stripped. *)
Lemma map_strip_split_strip (line : str) :
  map strip (split comma (strip line)) = map strip (split comma line).
Proof.
  destruct (lstrip_split line) as (ws1 & E1 & H1).
  destruct (rstrip_split (lstrip line)) as (ws2 & E2 & H2).
  fold (strip line) in E2.
  rewrite E1 at 2. rewrite E2.
  rewrite split_spaces_l by (auto using is_space_comma).
  rewrite split_spaces_r by (auto using is_space_comma).
  rewrite <- (map_strip_app_last (split comma (strip line)) ws2 H2).
  destruct (app_last (split comma (strip line)) ws2) as [|h t];
    [reflexivity|].
  simpl. now rewrite strip_spaces_l.
Qed.

Lemma map_strip_filter (l : list str) :
  map strip (filter (fun k => nonempty (strip k)) l)
  = filter nonempty (map strip l).
Proof.
  induction l as [|h t IH]; simpl; [reflexivity|].
  destruct (nonempty (strip h)); simpl; now rewrite IH.
Qed.

(** C8.  The input [a, b ,,c] gives the keys a, b, c in that order; and
    for every input the function returns what the words of the
    specification describe: the input split on commas, each entry
    stripped, the empty ones discarded, the order kept. *)
Theorem api_keys_split_strip_discard :
  ask_for_api_keys (py "a, b ,,c") = [py "a"; py "b"; py "c"]
  /\ forall line, ask_for_api_keys line = split_strip_discard line.
Proof.
  split; [vm_compute; reflexivity|].
  intros line. unfold ask_for_api_keys, split_strip_discard.
  rewrite map_strip_filter, map_strip_split_strip.
  destruct (strip line) as [|c v] eqn:E; simpl.
  - rewrite <- map_strip_split_strip, E. reflexivity.
  - now destruct (filter nonempty (map strip (split comma line))).
Qed.

(** ** json.loads never runs out of fuel *)

Lemma skip_ws_length (s : str) :
  (List.length (skip_ws s) <= List.length s)%nat.
Proof.
  induction s as [|c s IH]; simpl; [lia|].
  destruct (is_json_ws c); simpl; lia.
Qed.

Lemma span_length (p : char -> bool) (s : str) :
  (List.length (snd (span p s)) <= List.length s)%nat.
Proof.
  induction s as [|c s IH]; simpl; [lia|].
  destruct (p c); simpl; [|lia].
  destruct (span p s); simpl in *. lia.
Qed.

Lemma scanstring_length (n : nat) :
  forall s acc v r,
    (List.length s <= n)%nat ->
    scanstring s acc = Ok (v, r) ->
    (List.length r < List.length s)%nat.
Proof.
  induction n as [|n IH]; intros s acc v r Hn H.
  - destruct s; [discriminate|simpl in Hn; lia].
  - destruct s as [|c s]; [discriminate|].
    simpl in Hn. cbn [scanstring] in H.
    destruct (c =? dquote).
    { injection H as _ <-. simpl. lia. }
    destruct (c =? backslash).
    2:{ destruct (c <? 32); [discriminate|].
        apply IH in H; simpl; lia. }
    destruct s as [|esc r1]; [discriminate|].
    destruct (esc =? 117).
    2:{ destruct (backslash_escape esc); [|discriminate].
        apply IH in H; simpl in *; lia. }
    destruct r1 as [|h1 [|h2 [|h3 [|h4 r2]]]]; try discriminate.
    destruct (hex4 h1 h2 h3 h4) as [uni|]; [|discriminate].
    simpl in Hn.
    assert (Hplain : forall a, scanstring r2 a = Ok (v, r) ->
              (List.length r < List.length r2)%nat)
      by (intros a Ha; apply IH in Ha; lia).
    destruct (is_high_surrogate uni); [|apply Hplain in H; simpl; lia].
    destruct r2 as [|b [|u r2']]; try (apply Hplain in H; simpl in *; lia).
    destruct ((b =? backslash) && (u =? 117));
      [|apply Hplain in H; simpl in *; lia].
    destruct r2' as [|k1 [|k2 [|k3 [|k4 r3]]]]; try discriminate.
    destruct (hex4 k1 k2 k3 k4) as [uni2|]; [|discriminate].
    destruct (is_low_surrogate uni2);
      [|apply Hplain in H; simpl in *; lia].
    apply IH in H; simpl in *; lia.
Qed.

Lemma number_frac_length (s : str) :
  (List.length (snd (number_frac s)) <= List.length s)%nat.
Proof.
  unfold number_frac. destruct s as [|dot [|d r]]; try (simpl; lia).
  remember (d :: r) as dr eqn:E.
  pose proof (span_length is_digit dr) as H.
  destruct ((dot =? 46) && is_digit d); [|simpl; lia].
  destruct (span is_digit dr) as [fd s']. subst dr. simpl in *. lia.
Qed.

Lemma number_exp_length (s : str) :
  (List.length (snd (number_exp s)) <= List.length s)%nat.
Proof.
  unfold number_exp. destruct s as [|e r]; simpl; [lia|].
  destruct ((e =? 101) || (e =? 69)); simpl; [|lia].
  assert (H : forall r1, (List.length r1 <= List.length r)%nat ->
    (List.length
       (snd (let (ed, s') := span is_digit r1 in
             match ed with
             | [] => (None, e :: r)
             | _ :: _ =>
                 (Some (Z.of_N (digits_value ed)) : option Z, s')
             end)) <= S (List.length r))%nat).
  { intros r1 Hr. pose proof (span_length is_digit r1) as Hs.
    destruct (span is_digit r1) as [[|x ed] s']; simpl in *; lia. }
  destruct r as [|sg r']; simpl.
  - lia.
  - destruct (sg =? 45); [|destruct (sg =? 43)].
    + pose proof (span_length is_digit r') as Hs.
      destruct (span is_digit r') as [[|x ed] s']; simpl in *; lia.
    + pose proof (span_length is_digit r') as Hs.
      destruct (span is_digit r') as [[|x ed] s']; simpl in *; lia.
    + pose proof (span_length is_digit (sg :: r')) as Hs.
      destruct (span is_digit (sg :: r')) as [[|x ed] s']; simpl in *; lia.
Qed.

Lemma number_tail_length (I : interp) (neg : bool) (intd s : str)
  (v : value) (r : str) :
  number_tail I neg intd s = Ok (v, r) ->
  (List.length r <= List.length s)%nat.
Proof.
  unfold number_tail.
  pose proof (number_frac_length s) as H1.
  destruct (number_frac s) as [frac s1]. simpl in H1.
  pose proof (number_exp_length s1) as H2.
  destruct (number_exp s1) as [ex s2]. simpl in H2.
  destruct frac, ex; try (intros [= _ <-]; lia).
  destruct (_ && _); [discriminate|]. intros [= _ <-]. lia.
Qed.

Lemma match_number_length (I : interp) (s : str) (v : value) (r : str) :
  match_number I s = Ok (v, r) -> (List.length r <= List.length s)%nat.
Proof.
  unfold match_number.
  assert (H : forall neg s1, (List.length s1 <= List.length s)%nat ->
    match s1 with
    | [] => Raise JSONDecodeError
    | c :: r0 =>
        if (49 <=? c) && (c <=? 57)
        then let (ds, s2) := span is_digit r0 in
             number_tail I neg (c :: ds) s2
        else if c =? 48 then number_tail I neg [c] r0
             else Raise JSONDecodeError
    end = Ok (v, r) -> (List.length r <= List.length s)%nat).
  { intros neg [|c r0] Hl; [discriminate|]. simpl in Hl.
    destruct ((49 <=? c) && (c <=? 57)).
    - pose proof (span_length is_digit r0) as Hs.
      destruct (span is_digit r0) as [ds s2]. simpl in Hs.
      intros E. apply number_tail_length in E. lia.
    - destruct (c =? 48); [|discriminate].
      intros E. apply number_tail_length in E. lia. }
  destruct s as [|c r0]; [discriminate|].
  destruct (c =? 45).
  - apply (H true r0). simpl. lia.
  - apply (H false (c :: r0)). lia.
Qed.

Lemma scan_constant_length (s : str) (v : value) (r : str) :
  scan_constant s = Some (v, r) -> (List.length r <= List.length s)%nat.
Proof.
  unfold scan_constant.
  repeat match goal with
  | |- context [lit_match ?l s] =>
      let E := fresh "E" in
      destruct (lit_match l s) eqn:E;
      [apply lit_match_inv in E; intros [= _ <-]; subst s;
       rewrite length_app; lia|]
  end.
  discriminate.
Qed.

Lemma ended_raise (e : exn) (s : str) : ended_within (Some (Raise e)) s.
Proof. split; [discriminate|]. intros v r H. discriminate. Qed.

Lemma ended_ok (v : value) (r s : str) :
  (List.length r <= List.length s)%nat -> ended_within (Some (Ok (v, r))) s.
Proof.
  intros H. split; [discriminate|]. intros v' r' [= _ <-]. exact H.
Qed.

Lemma ended_shorter (o : option (result (value * str))) (s s' : str) :
  (List.length s' <= List.length s)%nat ->
  ended_within o s' -> ended_within o s.
Proof.
  intros Hl [H1 H2]. split; [exact H1|].
  intros v r E. specialize (H2 v r E). lia.
Qed.

Lemma skip_ws_cons_length (s : str) (c : char) (r : str) :
  skip_ws s = c :: r -> (S (List.length r) <= List.length s)%nat.
Proof.
  intros E. pose proof (skip_ws_length s) as H. rewrite E in H. exact H.
Qed.

Lemma scan_fuel_enough_all (I : interp) (fuel : nat) :
  (forall d s, (2 * List.length s + 1 <= fuel)%nat ->
     ended_within (scan_once I fuel d s) s)
  /\ (forall d s acc, (2 * List.length s + 1 <= fuel)%nat ->
        ended_within (object_members I fuel d s acc) s)
  /\ (forall d s acc, (2 * List.length s + 2 <= fuel)%nat ->
        ended_within (array_items I fuel d s acc) s).
Proof.
  induction fuel as [|fuel (IHs & IHo & IHa)].
  { repeat split; intros; lia. }
  split; [|split].
  - intros d [|c r] Hf; cbn [scan_once]; [apply ended_raise|].
    simpl in Hf.
    destruct (c =? dquote).
    { destruct (scanstring r []) as [[v r']|e] eqn:E; simpl;
        [|apply ended_raise].
      apply ended_ok. apply (scanstring_length _ _ _ _ _ (le_n _)) in E.
      simpl. lia. }
    destruct (c =? 123).
    { destruct d as [|d]; [apply ended_raise|].
      destruct (skip_ws r) as [|c' r'] eqn:E; [apply ended_raise|].
      apply skip_ws_cons_length in E.
      destruct (c' =? 125); [apply ended_ok; simpl; lia|].
      apply (ended_shorter _ _ (c' :: r')); [simpl; lia|].
      apply IHo. simpl. lia. }
    destruct (c =? 91).
    { destruct d as [|d]; [apply ended_raise|].
      destruct (skip_ws r) as [|c' r'] eqn:E; [apply ended_raise|].
      apply skip_ws_cons_length in E.
      destruct (c' =? 93); [apply ended_ok; simpl; lia|].
      apply (ended_shorter _ _ (c' :: r')); [simpl; lia|].
      apply IHa. simpl. lia. }
    destruct (scan_constant (c :: r)) as [[v r']|] eqn:E.
    { apply ended_ok. now apply scan_constant_length in E. }
    destruct (match_number I (c :: r)) as [[v r']|e] eqn:N;
      [|apply ended_raise].
    apply ended_ok. now apply match_number_length in N.
  - intros d [|c r] acc Hf; cbn [object_members]; [apply ended_raise|].
    simpl in Hf.
    destruct (c =? dquote); [|apply ended_raise].
    destruct (scanstring r []) as [[key r1]|e] eqn:E; [|apply ended_raise].
    apply (scanstring_length _ _ _ _ _ (le_n _)) in E.
    destruct (skip_ws r1) as [|c2 r2] eqn:E1; [apply ended_raise|].
    apply skip_ws_cons_length in E1.
    destruct (c2 =? colon); [|apply ended_raise].
    pose proof (skip_ws_length r2) as E2.
    destruct (IHs d (skip_ws r2) ltac:(lia)) as [Hn Hl].
    destruct (scan_once I fuel d (skip_ws r2)) as [[[v r3]|e]|];
      [|apply ended_raise|congruence].
    specialize (Hl v r3 eq_refl).
    destruct (skip_ws r3) as [|c4 r4] eqn:E3; [apply ended_raise|].
    apply skip_ws_cons_length in E3.
    destruct (c4 =? 125); [apply ended_ok; simpl; lia|].
    destruct (c4 =? comma); [|apply ended_raise].
    pose proof (skip_ws_length r4) as E4.
    apply (ended_shorter _ _ (skip_ws r4)); [simpl; lia|].
    apply IHo. lia.
  - intros d s acc Hf; cbn [array_items].
    destruct (IHs d s ltac:(lia)) as [Hn Hl].
    destruct (scan_once I fuel d s) as [[[v r1]|e]|];
      [|apply ended_raise|congruence].
    specialize (Hl v r1 eq_refl).
    destruct (skip_ws r1) as [|c2 r2] eqn:E1; [apply ended_raise|].
    apply skip_ws_cons_length in E1.
    destruct (c2 =? 93); [apply ended_ok; lia|].
    destruct (c2 =? comma); [|apply ended_raise].
    pose proof (skip_ws_length r2) as E2.
    apply (ended_shorter _ _ (skip_ws r2)); [lia|].
    apply IHa. lia.
Qed.

(** The fuel [json_loads] starts with is never used up: its branch for
    fuel that ran out is dead. *)
Lemma scan_fuel_enough (I : interp) (s : str) :
  scan_once I (2 * List.length s + 2) (recursion_depth I) (skip_ws s)
  <> None.
Proof.
  pose proof (skip_ws_length s) as H.
  destruct (scan_fuel_enough_all I (2 * List.length s + 2)) as (Hs & _ & _).
  apply (Hs (recursion_depth I) (skip_ws s)). lia.
Qed.

(** * Further properties of the code *)

(** ** extract_string *)

(** X1.  What [extract_string] returns stands in the text: the text holds
    the quoted key, whitespace, a colon, whitespace and the returned
    value between double quotes; the value is not empty and holds no
    double quote. *)
Theorem extract_string_sound (key text v : str) :
  extract_string key text = Some v ->
  exists pre ws1 ws2 post,
    text = pre ++ direct_literal key ws1 ws2 v ++ post
    /\ forallb is_space ws1 = true
    /\ forallb is_space ws2 = true
    /\ v <> []
    /\ forallb not_dquote v = true.
Proof. exact (extract_string_shape key text v). Qed.

Lemma extract_string_sound_witness :
  extract_string (py "port") (pyq "{'host': 'h', 'port' : '80'}")
  = Some (py "80")
  /\ exists pre ws1 ws2 post,
       pyq "{'host': 'h', 'port' : '80'}"
       = pre ++ direct_literal (py "port") ws1 ws2 (py "80") ++ post
       /\ forallb is_space ws1 = true
       /\ forallb is_space ws2 = true
       /\ py "80" <> []
       /\ forallb not_dquote (py "80") = true.
Proof.
  assert (H : extract_string (py "port") (pyq "{'host': 'h', 'port' : '80'}")
              = Some (py "80")) by (vm_compute; reflexivity).
  split; [exact H|].
  exact (extract_string_sound _ _ _ H).
Defined.

Lemma re_search_finds (r : regex) (pre s : str) (m : Match) :
  re_match_at r s = Some m -> exists m', re_search r (pre ++ s) = Some m'.
Proof.
  intros H. induction pre as [|c pre IH]; simpl.
  - exists m. now apply re_search_here.
  - destruct (re_match_at r (c :: pre ++ s)) as [m1|]; eauto.
Qed.

(** X2.  A direct literal for the key anywhere in the text, with a
    non-empty value free of double quotes, is never missed:
    [extract_string] returns some value. *)
Theorem extract_string_complete (key pre ws1 ws2 value post : str) :
  forallb is_space ws1 = true ->
  forallb is_space ws2 = true ->
  value <> [] ->
  forallb not_dquote value = true ->
  exists v,
    extract_string key (pre ++ direct_literal key ws1 ws2 value ++ post)
    = Some v.
Proof.
  intros H1 H2 Hne Hv. unfold extract_string.
  destruct (re_search_finds (string_pattern key) pre _ _
              (string_pattern_at_literal key ws1 ws2 value post H1 H2 Hne Hv))
    as (m & E).
  rewrite E.
  apply re_search_inv in E as (p & s & _ & E).
  apply string_pattern_group in E as (v & Hg & _). eauto.
Qed.

Lemma extract_string_complete_witness :
  exists v,
    extract_string (py "k")
      (pyq "'k':'first' " ++
       direct_literal (py "k") [32] [10] (py "second") ++ py " tail")
    = Some v.
Proof.
  apply extract_string_complete.
  - reflexivity.
  - reflexivity.
  - discriminate.
  - reflexivity.
Defined.

(** ** extract_innertube_api_key *)

(** Where the second pattern matches, the text reads: the call, an
    opening brace, at least one character, a closing brace; group 1 is
    the text from brace to brace. *)
Lemma ytcfg_pattern_group (s : str) (m : Match) :
  re_match_at ytcfg_pattern s = Some m ->
  exists ws1 body rest,
    s = py "ytcfg.set(" ++ ws1 ++ 123 :: body ++ 125 :: rest
    /\ body <> []
    /\ group1 m = Some (123 :: body ++ [125]).
Proof.
  unfold re_match_at, ytcfg_pattern. cbn [rmatch].
  destruct (lit_match _ s) as [s1|] eqn:L1; [|discriminate].
  apply lit_match_inv in L1. subst s.
  intros H. apply star_greedy_inv in H as (ws1 & s2 & -> & _ & H).
  destruct (lit_match [123] s2) as [s3|] eqn:L2; [|discriminate].
  apply lit_match_inv in L2. subst s2.
  apply plus_lazy_inv in H as (body & s4 & -> & Hne & _ & H).
  destruct (lit_match [125] s4) as [s5|] eqn:L3; [|discriminate].
  apply lit_match_inv in L3. subst s4.
  apply star_greedy_inv in H as (ws2 & s6 & -> & _ & H).
  destruct (lit_match [41] s6) as [s7|]; [|discriminate].
  apply star_greedy_inv in H as (ws3 & s8 & -> & _ & H).
  destruct (lit_match [59] s8) as [s9|]; [|discriminate].
  injection H as <-. exists ws1, body, (ws2 ++ s6). cbn [group1].
  repeat split; auto. f_equal.
  assert (E : 123 :: body ++ 125 :: ws2 ++ s6
              = (123 :: body ++ [125]) ++ ws2 ++ s6)
    by (simpl; now rewrite <- app_assoc).
  pose proof (firstn_consumed (123 :: body ++ [125]) (ws2 ++ s6)) as F.
  rewrite <- E in F. exact F.
Qed.

Lemma object_members_dict (I : interp) (fuel : nat) :
  forall depth s d v r,
    object_members I fuel depth s d = Some (Ok (v, r)) ->
    exists d', v = VDict d'.
Proof.
  induction fuel as [|fuel IH]; intros depth s d v r; [discriminate|].
  cbn [object_members].
  destruct s as [|c s']; [discriminate|].
  destruct (c =? dquote); [|discriminate].
  destruct (scanstring s' []) as [[key r1]|e]; [|discriminate].
  destruct (skip_ws r1) as [|c2 r2]; [discriminate|].
  destruct (c2 =? colon); [|discriminate].
  destruct (scan_once I fuel depth (skip_ws r2)) as [[[v3 r3]|e]|];
    try discriminate.
  destruct (skip_ws r3) as [|c4 r4]; [discriminate|].
  destruct (c4 =? 125); [intros [= <- _]; eauto|].
  destruct (c4 =? comma); [|discriminate].
  apply IH.
Qed.

(** A text that starts with an opening brace decodes to a [dict] or not
    at all. *)
Lemma json_loads_brace (I : interp) (s : str) (cfg : value) :
  json_loads I (123 :: s) = Ok cfg -> exists d, cfg = VDict d.
Proof.
  unfold json_loads.
  change (skip_ws (123 :: s)) with (123 :: s).
  destruct (2 * List.length (123%N :: s) + 2)%nat as [|fuel];
    [discriminate|].
  cbn [scan_once].
  change (123 =? dquote) with false. change (123 =? 123) with true.
  cbv iota.
  destruct (recursion_depth I) as [|depth]; [discriminate|].
  destruct (skip_ws s) as [|c' r']; [discriminate|].
  destruct (c' =? 125).
  - destruct (skip_ws r'); [|discriminate]. intros [= <-]. eauto.
  - destruct (object_members I fuel depth (c' :: r') [])
      as [[[v r]|e]|] eqn:E; try discriminate.
    apply object_members_dict in E as (d & ->).
    destruct (skip_ws r); [|discriminate]. intros [= <-]. eauto.
Qed.

(** X3.  The span that the embedded-object pattern captures runs from an
    opening brace to a closing brace with something in between, so that
    [json.loads] makes a [dict] of it or raises: [cfg.get] is never
    called on anything but a [dict]. *)
Theorem captured_span_is_object (I : interp) (html : str) (m : Match) :
  re_search ytcfg_pattern html = Some m ->
  exists body,
    body <> []
    /\ group1 m = Some (123 :: body ++ [125])
    /\ forall cfg,
         json_loads I (123 :: body ++ [125]) = Ok cfg ->
         exists d, cfg = VDict d.
Proof.
  intros H. apply re_search_inv in H as (pre & s & _ & H).
  apply ytcfg_pattern_group in H as (ws1 & body & rest & _ & Hne & Hg).
  exists body. repeat split; auto.
  intros cfg. apply json_loads_brace.
Qed.

Lemma captured_span_is_object_witness :
  re_search ytcfg_pattern (pyq "x ytcfg.set( {'a': [1]} ) ; y")
  = Some {| group1 := Some (pyq "{'a': [1]}") |}
  /\ exists body,
       body <> []
       /\ Some (pyq "{'a': [1]}") = Some (123 :: body ++ [125])
       /\ forall cfg,
            json_loads cpython_defaults (123 :: body ++ [125]) = Ok cfg ->
            exists d, cfg = VDict d.
Proof.
  assert (H : re_search ytcfg_pattern (pyq "x ytcfg.set( {'a': [1]} ) ; y")
              = Some {| group1 := Some (pyq "{'a': [1]}") |})
    by (vm_compute; reflexivity).
  split; [exact H|].
  exact (captured_span_is_object cpython_defaults _ _ H).
Defined.

(** X4.  The key missing from the object, or stored there as [null]: in
    a text without direct literal whose first embedded-object construct
    holds an object literal that parses (no closing brace inside it
    followed by whitespace, a closing parenthesis, whitespace and a
    semicolon), the extractor returns absent. *)
Theorem missing_key_is_absent
  (I : interp) (pre ws1 body ws2 ws3 post : str) (d : list (str * value)) :
  extract_string INNERTUBE_API_KEY
    (pre ++ embedded_construct ws1 (123 :: body ++ [125]) ws2 ws3 ++ post)
  = None ->
  body <> [] ->
  forallb is_space ws1 = true ->
  forallb is_space ws2 = true ->
  forallb is_space ws3 = true ->
  json_loads I (123 :: body ++ [125]) = Ok (VDict d) ->
  dict_get d INNERTUBE_API_KEY = None
  \/ dict_get d INNERTUBE_API_KEY = Some VNone ->
  (forall p1 p2, pre = p1 ++ p2 -> p2 <> [] ->
     re_match_at ytcfg_pattern
       (p2 ++ embedded_construct ws1 (123 :: body ++ [125]) ws2 ws3 ++ post)
     = None) ->
  (forall b1 b2, body = b1 ++ b2 -> b1 <> [] -> b2 <> [] ->
     closes_at (b2 ++ 125 :: construct_tail ws2 ws3 ++ post) = false) ->
  extract_innertube_api_key I
    (pre ++ embedded_construct ws1 (123 :: body ++ [125]) ws2 ws3 ++ post)
  = Ok VNone.
Proof.
  intros Hlit Hne H1 H2 H3 HJ HD Hfirst Hmin.
  unfold extract_innertube_api_key. rewrite Hlit.
  rewrite re_search_skip by exact Hfirst.
  rewrite (re_search_here _ _ _
             (ytcfg_at_construct ws1 body ws2 ws3 post Hne H1 H2 H3 Hmin)).
  cbn [group1 json_loads_group]. rewrite HJ. simpl.
  now destruct HD as [-> | ->].
Qed.

Lemma missing_key_is_absent_witness :
  extract_innertube_api_key cpython_defaults
    (py "<script>" ++
     embedded_construct []
       (123 :: pyq "'CLIENT': 'tv', 'INNERTUBE_API_KEY': null" ++ [125])
       [] [32] ++
     py "</script>")
  = Ok VNone
  /\ extract_innertube_api_key cpython_defaults
       (embedded_construct [] (123 :: pyq "'CLIENT': 'tv'" ++ [125]) [] []
        ++ [])
     = Ok VNone.
Proof.
  split.
  - apply (missing_key_is_absent cpython_defaults _ _ _ _ _ _
             [(py "CLIENT", VStr (py "tv")); (INNERTUBE_API_KEY, VNone)]).
    + vm_compute. reflexivity.
    + discriminate.
    + reflexivity.
    + reflexivity.
    + reflexivity.
    + vm_compute. reflexivity.
    + right. reflexivity.
    + apply matches_inside_false. vm_compute. reflexivity.
    + apply closes_inside_tail_false. vm_compute. reflexivity.
  - apply (missing_key_is_absent cpython_defaults [] _ _ _ _ _
             [(py "CLIENT", VStr (py "tv"))]).
    + vm_compute. reflexivity.
    + discriminate.
    + reflexivity.
    + reflexivity.
    + reflexivity.
    + vm_compute. reflexivity.
    + left. reflexivity.
    + apply matches_inside_false. vm_compute. reflexivity.
    + apply closes_inside_tail_false. vm_compute. reflexivity.
Defined.

Lemma skip_ws_forallb (p : char -> bool) (s : str) :
  forallb p s = true -> forallb p (skip_ws s) = true.
Proof.
  induction s as [|c s IH]; simpl; [auto|].
  intros H. destruct (is_json_ws c); [|exact H].
  apply andb_prop in H as [_ H]. auto.
Qed.

(** An object literal without double quote holds no key. *)
Lemma json_loads_no_dquote (I : interp) (s : str) (cfg : value) :
  forallb not_dquote s = true ->
  json_loads I (123 :: s) = Ok cfg -> cfg = VDict [].
Proof.
  intros Hq. unfold json_loads.
  change (skip_ws (123 :: s)) with (123 :: s).
  destruct (2 * List.length (123%N :: s) + 2)%nat as [|fuel];
    [discriminate|].
  cbn [scan_once].
  change (123 =? dquote) with false. change (123 =? 123) with true.
  cbv iota.
  destruct (recursion_depth I) as [|depth]; [discriminate|].
  apply (skip_ws_forallb not_dquote) in Hq.
  destruct (skip_ws s) as [|c' r']; [discriminate|].
  destruct (c' =? 125).
  - destruct (skip_ws r'); [|discriminate]. now intros [= <-].
  - simpl in Hq. apply andb_prop in Hq as [Hc _].
    unfold not_dquote in Hc.
    destruct fuel as [|fuel]; [discriminate|].
    cbn [object_members].
    destruct (c' =? dquote); discriminate.
Qed.

(** X5.  A text that holds no double quote holds no key: the extractor
    returns absent, whatever else the text is. *)
Theorem no_double_quote_no_key (I : interp) (html : str) :
  forallb not_dquote html = true ->
  extract_innertube_api_key I html = Ok VNone.
Proof.
  intros Hq. unfold extract_innertube_api_key.
  destruct (extract_string INNERTUBE_API_KEY html) as [v|] eqn:E.
  { apply extract_string_shape in E as (pre & ws1 & ws2 & post & -> & _).
    rewrite forallb_app in Hq. apply andb_prop in Hq as [_ Hq].
    unfold direct_literal in Hq. discriminate. }
  destruct (re_search ytcfg_pattern html) as [m|] eqn:S; [|reflexivity].
  apply re_search_inv in S as (pre & s & -> & S).
  apply ytcfg_pattern_group in S as (ws1 & body & rest & -> & _ & ->).
  cbn [json_loads_group].
  destruct (json_loads I (123 :: body ++ [125])) as [cfg|e] eqn:J;
    [|reflexivity].
  apply json_loads_no_dquote in J; [now subst cfg|].
  rewrite !forallb_app in Hq. apply andb_prop in Hq as [_ Hq].
  apply andb_prop in Hq as [_ Hq]. apply andb_prop in Hq as [_ Hq].
  simpl in Hq. rewrite forallb_app in Hq.
  apply andb_prop in Hq as [Hb _]. rewrite forallb_app, Hb. reflexivity.
Qed.

Lemma no_double_quote_no_key_witness :
  extract_innertube_api_key cpython_defaults
    (py "ytcfg.set({INNERTUBE_API_KEY: AIzaSy});")
  = Ok VNone.
Proof.
  apply no_double_quote_no_key. vm_compute. reflexivity.
Defined.

(** ** get_fresh_innertube_key *)

Lemma sent_app (a b : list event) : sent (a ++ b) = sent a ++ sent b.
Proof.
  induction a as [|[m|rq|m] a IH]; simpl; [reflexivity|exact IH| |exact IH].
  now rewrite IH.
Qed.

(** The urls of the fixed list are announced on a console that encodes
    as UTF-8. *)
Lemma utf8_console_announces (tr : list event) (url : str) :
  In url urls_to_try -> utf8_console tr (MsgTrying url) = None.
Proof.
  intros [<-|[<-|[<-|[]]]]; vm_compute; reflexivity.
Qed.

(** The requests of the loop on any list of urls and any server, on a
    console that takes the line announcing each url: requests are sent
    for the first [n] urls, one at least, and all of them when absent is
    returned. *)
Lemma probe_requests (I : interp) (net : network) (con : console)
  (hs : list (str * str)) (urls : list str) :
  (forall tr url, In url urls -> con tr (MsgTrying url) = None) ->
  forall tr,
  exists n,
    (n <= List.length urls)%nat
    /\ (urls <> [] -> (1 <= n)%nat)
    /\ sent (snd (probe I net con hs urls tr))
       = sent tr ++ map (request_for hs) (firstn n urls)
    /\ (fst (probe I net con hs urls tr) = Ok VNone -> n = List.length urls).
Proof.
  induction urls as [|url rest IH]; intros Ha tr.
  - exists 0%nat. cbn [probe]. split; [simpl; lia|]. split; [congruence|].
    destruct (con tr MsgNotFound); cbn [fst snd]; rewrite sent_app; simpl;
      rewrite !app_nil_r; auto.
  - assert (Ha' : forall tr url, In url rest -> con tr (MsgTrying url) = None)
      by (intros tr' u Hu; apply Ha; now right).
    specialize (IH Ha').
    assert (Hnext : forall tr2,
      sent tr2 = sent tr ++ [request_for hs url] ->
      exists n,
        (n <= List.length (url :: rest))%nat
        /\ (url :: rest <> [] -> (1 <= n)%nat)
        /\ sent (snd (probe I net con hs rest tr2))
           = sent tr ++ map (request_for hs) (firstn n (url :: rest))
        /\ (fst (probe I net con hs rest tr2) = Ok VNone ->
            n = List.length (url :: rest))).
    { intros tr2 E2. destruct (IH tr2) as (n & Hn & _ & Hs & Hv).
      exists (S n). split; [simpl; lia|]. split; [lia|]. split.
      - rewrite Hs, E2, <- app_assoc. reflexivity.
      - intros E. simpl. now rewrite (Hv E). }
    assert (Hhandler : forall e tr2,
      sent tr2 = sent tr ++ [request_for hs url] ->
      exists n,
        (n <= List.length (url :: rest))%nat
        /\ (url :: rest <> [] -> (1 <= n)%nat)
        /\ sent (snd (except_handler con url e tr2 (probe I net con hs rest)))
           = sent tr ++ map (request_for hs) (firstn n (url :: rest))
        /\ (fst (except_handler con url e tr2 (probe I net con hs rest))
            = Ok VNone -> n = List.length (url :: rest))).
    { intros e tr2 E2. unfold except_handler.
      destruct (con tr2 (MsgError url e)) as [e'|].
      - exists 1%nat. cbn [fst snd]. split; [simpl; lia|]. split; [lia|].
        split; [|discriminate].
        rewrite sent_app, E2. simpl. now rewrite app_nil_r.
      - apply Hnext. rewrite sent_app, E2. simpl. now rewrite app_nil_r. }
    assert (Hsent : forall extra,
      sent extra = [] ->
      sent (((tr ++ [Print (MsgTrying url)]) ++ [Get (request_for hs url)])
            ++ extra)
      = sent tr ++ [request_for hs url]).
    { intros extra Hx. rewrite !sent_app, Hx. simpl.
      now rewrite !app_nil_r. }
    assert (Hsent0 :
      sent ((tr ++ [Print (MsgTrying url)]) ++ [Get (request_for hs url)])
      = sent tr ++ [request_for hs url]).
    { rewrite <- (app_nil_r (_ ++ [Get _])). now apply Hsent. }
    cbn [probe]. rewrite (Ha tr url) by now left.
    destruct (net (tr ++ [Print (MsgTrying url)]) (request_for hs url))
      as [r|e]; [|now apply Hhandler].
    destruct (status_code r =? 200)%Z; cbn [negb]; [|now apply Hnext].
    destruct (extract_innertube_api_key I (text r)) as [key|e];
      [|now apply Hhandler].
    destruct (truthy key) eqn:T; [|now apply Hnext].
    destruct (con _ (MsgFound key)) as [e|].
    + apply Hhandler. now apply Hsent.
    + exists 1%nat. cbn [fst snd]. split; [simpl; lia|]. split; [lia|].
      split; [rewrite Hsent by reflexivity; reflexivity|].
      intros [= ->]. discriminate.
Qed.

(** On a console that refuses the line announcing a url, as a standard
    output does whose encoding lacks the arrow of that line, and that
    takes the report of the exception and the last line, no request is
    sent at all and absent is returned. *)
Lemma unannounced_sources_are_not_asked (I : interp) (net : network)
  (con : console) (hs : list (str * str)) (urls : list str) :
  (forall tr url, con tr (MsgTrying url) <> None) ->
  (forall tr url e, con tr (MsgError url e) = None) ->
  (forall tr, con tr MsgNotFound = None) ->
  forall tr,
    fst (probe I net con hs urls tr) = Ok VNone
    /\ sent (snd (probe I net con hs urls tr)) = sent tr.
Proof.
  intros Ht He Hn. induction urls as [|url rest IH]; intros tr; cbn [probe].
  - rewrite Hn. cbn [fst snd]. split; [reflexivity|].
    rewrite sent_app. simpl. now rewrite app_nil_r.
  - destruct (con tr (MsgTrying url)) as [e|] eqn:C;
      [|now destruct (Ht tr url)].
    unfold except_handler. rewrite He.
    destruct (IH ((tr ++ [PrintRaised (MsgTrying url)])
                  ++ [Print (MsgError url e)])) as [E1 E2].
    split; [exact E1|]. rewrite E2, !sent_app. simpl.
    now rewrite !app_nil_r.
Qed.

(** X6.  Whatever the server and the console do, a value that
    [get_fresh_innertube_key] returns is absent or passes the test
    [if key:]: never the empty string, zero, [False] or an empty
    container.  An exception leaves the function only from the [print]
    of the [except] clause or from the [print] after the loop, and the
    trace ends with that call. *)
Theorem fresh_key_usable (I : interp) (net : network) (con : console)
  (user_agent : str) :
  match fst (get_fresh_innertube_key I net con user_agent) with
  | Ok v => v = VNone \/ truthy v = true
  | Raise e =>
      exists tr m,
        snd (get_fresh_innertube_key I net con user_agent)
        = tr ++ [PrintRaised m]
        /\ con tr m = Some e
        /\ (m = MsgNotFound \/
            exists url e0, In url urls_to_try /\ m = MsgError url e0)
  end.
Proof.
  unfold get_fresh_innertube_key.
  pose proof (probe_result I net con (make_headers user_agent)
                urls_to_try []) as H.
  destruct (fst (probe I net con (make_headers user_agent) urls_to_try []))
    as [v|e]; [|exact H].
  destruct H as [H|[H _]]; auto.
Qed.

(** X7.  Whatever the server does, on a console that takes the line
    announcing each url, the requests sent are those for the first [n]
    urls of the fixed list, in order and once each, with [n] from 1 to
    3; each carries the three headers built from the caller's user
    agent and the timeout of 12 seconds. *)
Theorem requests_follow_the_list
  (I : interp) (net : network) (con : console) (user_agent : str) :
  (forall tr url, In url urls_to_try -> con tr (MsgTrying url) = None) ->
  exists n,
    (1 <= n <= 3)%nat
    /\ sent (snd (get_fresh_innertube_key I net con user_agent))
       = map (request_for (make_headers user_agent)) (firstn n urls_to_try).
Proof.
  intros Ha. unfold get_fresh_innertube_key.
  destruct (probe_requests I net con (make_headers user_agent) urls_to_try
              Ha []) as (n & Hn & H1 & Hs & _).
  exists n. split; [|exact Hs]. simpl in Hn.
  split; [apply H1; discriminate|exact Hn].
Qed.

Lemma requests_follow_the_list_witness :
  exists n,
    (1 <= n <= 3)%nat
    /\ sent (snd (get_fresh_innertube_key cpython_defaults
                    (serve resp_surrogate_key resp_fault_surrogate
                       resp_literal)
                    utf8_console DEFAULT_UA))
       = map (request_for (make_headers DEFAULT_UA)) (firstn n urls_to_try).
Proof.
  apply requests_follow_the_list. exact utf8_console_announces.
Defined.

(** X8.  Absent is returned only after all three sources were asked: on
    a console that takes the line announcing each url, when the result
    is absent the requests sent are those for the tv page, the site
    root and the embed page, in this order. *)
Theorem absent_after_all_sources
  (I : interp) (net : network) (con : console) (user_agent : str) :
  (forall tr url, In url urls_to_try -> con tr (MsgTrying url) = None) ->
  fst (get_fresh_innertube_key I net con user_agent) = Ok VNone ->
  sent (snd (get_fresh_innertube_key I net con user_agent))
  = map (request_for (make_headers user_agent)) urls_to_try.
Proof.
  intros Ha. unfold get_fresh_innertube_key.
  destruct (probe_requests I net con (make_headers user_agent) urls_to_try
              Ha []) as (n & _ & _ & Hs & Hv).
  intros E. rewrite Hs, (Hv E). reflexivity.
Qed.

Lemma absent_after_all_sources_witness :
  fst (get_fresh_innertube_key cpython_defaults
         (serve resp_empty_key resp_503 resp_fault) utf8_console DEFAULT_UA)
  = Ok VNone
  /\ sent (snd (get_fresh_innertube_key cpython_defaults
                  (serve resp_empty_key resp_503 resp_fault) utf8_console
                  DEFAULT_UA))
     = map (request_for (make_headers DEFAULT_UA)) urls_to_try.
Proof.
  assert (H : fst (get_fresh_innertube_key cpython_defaults
                     (serve resp_empty_key resp_503 resp_fault) utf8_console
                     DEFAULT_UA)
              = Ok VNone) by (vm_compute; reflexivity).
  split; [exact H|].
  exact (absent_after_all_sources _ _ _ _ utf8_console_announces H).
Defined.

(** X9.  A key that is returned was found by the extractor in the body
    of the response to the last request of the run, and that response
    had status 200: the trace ends with that request and the line that
    shows the key, and the response is the one the server gave when the
    request was sent, after the events that precede it in the trace. *)
Theorem key_comes_from_last_response
  (I : interp) (net : network) (con : console) (user_agent : str)
  (v : value) :
  fst (get_fresh_innertube_key I net con user_agent) = Ok v ->
  v <> VNone ->
  exists tr0 url r,
    In url urls_to_try
    /\ snd (get_fresh_innertube_key I net con user_agent)
       = tr0 ++ [Get (request_for (make_headers user_agent) url);
                 Print (MsgFound v)]
    /\ net tr0 (request_for (make_headers user_agent) url) = Ok r
    /\ status_code r = 200%Z
    /\ extract_innertube_api_key I (text r) = Ok v.
Proof.
  unfold get_fresh_innertube_key. intros E Hne.
  pose proof (probe_result I net con (make_headers user_agent)
                urls_to_try []) as H.
  rewrite E in H. destruct H as [H|[_ H]]; [congruence|exact H].
Qed.

Lemma key_comes_from_last_response_witness :
  fst (get_fresh_innertube_key cpython_defaults
         (serve resp_503 resp_literal resp_fault) utf8_console DEFAULT_UA)
  = Ok (VStr (py "AIzaSyTest"))
  /\ exists tr0 url r,
       In url urls_to_try
       /\ snd (get_fresh_innertube_key cpython_defaults
                 (serve resp_503 resp_literal resp_fault) utf8_console
                 DEFAULT_UA)
          = tr0 ++ [Get (request_for (make_headers DEFAULT_UA) url);
                    Print (MsgFound (VStr (py "AIzaSyTest")))]
       /\ serve resp_503 resp_literal resp_fault tr0
            (request_for (make_headers DEFAULT_UA) url) = Ok r
       /\ status_code r = 200%Z
       /\ extract_innertube_api_key cpython_defaults (text r)
          = Ok (VStr (py "AIzaSyTest")).
Proof.
  assert (H : fst (get_fresh_innertube_key cpython_defaults
                     (serve resp_503 resp_literal resp_fault) utf8_console
                     DEFAULT_UA)
              = Ok (VStr (py "AIzaSyTest"))) by (vm_compute; reflexivity).
  split; [exact H|].
  apply (key_comes_from_last_response _ _ _ _ _ H). discriminate.
Defined.

(** X10.  The first source decides when it can: if the console takes
    the line announcing the tv page, the page answers with status 200
    and a body in which the extractor finds a value that passes
    [if key:], and the console takes the line that shows this value,
    then the value is returned after that one request, and neither the
    site root nor the embed page is asked. *)
Theorem first_source_wins
  (I : interp) (net : network) (con : console) (user_agent : str)
  (r : response) (v : value) :
  con [] (MsgTrying url_tv) = None ->
  net [Print (MsgTrying url_tv)]
    (request_for (make_headers user_agent) url_tv) = Ok r ->
  status_code r = 200%Z ->
  extract_innertube_api_key I (text r) = Ok v ->
  truthy v = true ->
  con [Print (MsgTrying url_tv);
       Get (request_for (make_headers user_agent) url_tv)]
    (MsgFound v) = None ->
  get_fresh_innertube_key I net con user_agent
  = (Ok v,
     [Print (MsgTrying url_tv);
      Get (request_for (make_headers user_agent) url_tv);
      Print (MsgFound v)]).
Proof.
  intros Hc Hn Hs Hx Ht Hf. unfold get_fresh_innertube_key, urls_to_try.
  apply (probe_found I net con _ url_tv _ [] r v Hn Hs Hx Ht).
  simpl. auto.
Qed.

Lemma first_source_wins_witness :
  get_fresh_innertube_key cpython_defaults
    (serve resp_literal resp_literal resp_literal) utf8_console DEFAULT_UA
  = (Ok (VStr (py "AIzaSyTest")),
     [Print (MsgTrying url_tv);
      Get (request_for (make_headers DEFAULT_UA) url_tv);
      Print (MsgFound (VStr (py "AIzaSyTest")))]).
Proof.
  apply (first_source_wins cpython_defaults _ _ DEFAULT_UA
           {| status_code := 200; text := page_literal |}).
  - vm_compute. reflexivity.
  - reflexivity.
  - reflexivity.
  - vm_compute. reflexivity.
  - reflexivity.
  - vm_compute. reflexivity.
Defined.

(** ** ask_for_api_keys *)

Lemma ask_for_api_keys_spec (line : str) :
  ask_for_api_keys line = split_strip_discard line.
Proof.
  unfold ask_for_api_keys, split_strip_discard.
  rewrite map_strip_filter, map_strip_split_strip.
  destruct (strip line) as [|c v] eqn:E; simpl.
  - rewrite <- map_strip_split_strip, E. reflexivity.
  - now destruct (filter nonempty (map strip (split comma line))).
Qed.

Lemma lstrip_head (s : str) : starts_unspaced (lstrip s).
Proof.
  induction s as [|c s IH]; simpl; [exact I|].
  destruct (is_space c) eqn:E; [exact IH|exact E].
Qed.

Lemma lstrip_fix (s : str) : starts_unspaced s -> lstrip s = s.
Proof. destruct s as [|c s]; simpl; [auto|]. now intros ->. Qed.

Lemma rstrip_keeps_head (u : str) :
  starts_unspaced u -> starts_unspaced (rstrip u).
Proof.
  intros H. destruct (rstrip_split u) as (ws & E & _).
  destruct (rstrip u) as [|c r]; [exact I|].
  rewrite E in H. exact H.
Qed.

Lemma rstrip_idem (u : str) : rstrip (rstrip u) = rstrip u.
Proof.
  unfold rstrip. rewrite rev_involutive.
  now rewrite (lstrip_fix _ (lstrip_head (rev u))).
Qed.

Lemma strip_idem (s : str) : strip (strip s) = strip s.
Proof.
  unfold strip.
  rewrite (lstrip_fix (rstrip (lstrip s)))
    by apply rstrip_keeps_head, lstrip_head.
  apply rstrip_idem.
Qed.

Lemma strip_forallb (p : char -> bool) (s : str) :
  forallb p s = true -> forallb p (strip s) = true.
Proof.
  intros H. unfold strip.
  destruct (lstrip_split s) as (ws1 & E1 & _).
  destruct (rstrip_split (lstrip s)) as (ws2 & E2 & _).
  rewrite E1, E2, !forallb_app in H.
  apply andb_prop in H as [_ H]. now apply andb_prop in H as [H _].
Qed.

Lemma strip_nil_iff (s : str) :
  strip s = [] <-> forallb is_space s = true.
Proof.
  split.
  - intros H. unfold strip in H.
    destruct (lstrip_split s) as (ws1 & E1 & H1).
    destruct (rstrip_split (lstrip s)) as (ws2 & E2 & H2).
    rewrite H in E2. simpl in E2.
    pose proof (lstrip_head s) as Hh. rewrite E2 in Hh.
    destruct ws2 as [|c ws2].
    + rewrite E1, E2, app_nil_r. exact H1.
    + simpl in Hh, H2. rewrite Hh in H2. discriminate.
  - intros H. unfold strip. now rewrite (lstrip_all_spaces s H).
Qed.

Lemma split_no_sep (sep : char) (s x : str) :
  In x (split sep s) -> forallb (fun c => negb (c =? sep)) x = true.
Proof.
  revert x. induction s as [|c s IH]; simpl; intros x.
  - intros [<-|[]]. reflexivity.
  - destruct (c =? sep) eqn:E.
    + intros [<-|H]; [reflexivity|auto].
    + destruct (split sep s) as [|h t] eqn:S.
      * intros [<-|[]]. simpl. now rewrite E.
      * intros [<-|H].
        -- simpl. rewrite E. simpl. apply IH. now left.
        -- apply IH. now right.
Qed.

Lemma keys_are_clean_of (line k : str) :
  In k (ask_for_api_keys line) -> clean_key k.
Proof.
  rewrite ask_for_api_keys_spec. unfold split_strip_discard.
  intros H. apply filter_In in H as [H Hne].
  apply in_map_iff in H as (x & <- & Hx).
  split; [|split].
  - intros E. rewrite E in Hne. discriminate.
  - apply strip_idem.
  - apply strip_forallb. exact (split_no_sep comma line x Hx).
Qed.

(** X11.  Every key that [ask_for_api_keys] returns is clean: it is not
    empty, holds no comma, and neither starts nor ends with
    whitespace. *)
Theorem keys_are_clean (line k : str) :
  In k (ask_for_api_keys line) -> clean_key k.
Proof. exact (keys_are_clean_of line k). Qed.

Lemma keys_are_clean_witness :
  In (py "b c") (ask_for_api_keys (py " a ,, b c ,")) /\ clean_key (py "b c").
Proof.
  assert (H : In (py "b c") (ask_for_api_keys (py " a ,, b c ,")))
    by (vm_compute; auto).
  split; [exact H|]. exact (keys_are_clean _ _ H).
Defined.

Lemma split_all_space (line : str) :
  forallb (forallb is_space) (split comma line)
  = forallb comma_or_space line.
Proof.
  induction line as [|c line IH]; [reflexivity|].
  cbn [split forallb]. unfold comma_or_space at 1.
  destruct (c =? comma) eqn:E.
  - simpl. exact IH.
  - destruct (split comma line) as [|h t] eqn:S.
    + now apply split_nonempty in S.
    + simpl in *. rewrite <- IH. now rewrite andb_assoc.
Qed.

Lemma discard_all_iff (l : list str) :
  filter nonempty (map strip l) = [] <->
  forallb (forallb is_space) l = true.
Proof.
  induction l as [|x l IH]; simpl; [tauto|].
  destruct (strip x) as [|c r] eqn:E; simpl.
  - apply strip_nil_iff in E. rewrite E. simpl. exact IH.
  - split; [discriminate|].
    intros H. apply andb_prop in H as [H _].
    apply strip_nil_iff in H. congruence.
Qed.

(** X12.  The list of keys is empty exactly when the line holds nothing
    but commas and whitespace. *)
Theorem no_keys_iff_blank (line : str) :
  ask_for_api_keys line = [] <-> forallb comma_or_space line = true.
Proof.
  rewrite ask_for_api_keys_spec. unfold split_strip_discard.
  rewrite discard_all_iff. now rewrite split_all_space.
Qed.

Lemma split_app_sep (sep : char) (k rest : str) :
  forallb (fun c => negb (c =? sep)) k = true ->
  split sep (k ++ sep :: rest) = k :: split sep rest.
Proof.
  induction k as [|c k IH]; simpl; intros H.
  - now rewrite N.eqb_refl.
  - apply andb_prop in H as [Hc H].
    destruct (c =? sep); [discriminate|]. now rewrite (IH H).
Qed.

Lemma split_one (sep : char) (k : str) :
  forallb (fun c => negb (c =? sep)) k = true -> split sep k = [k].
Proof.
  induction k as [|c k IH]; simpl; intros H; [reflexivity|].
  apply andb_prop in H as [Hc H].
  destruct (c =? sep); [discriminate|]. now rewrite (IH H).
Qed.

Lemma discard_space_first (s : str) :
  split_strip_discard (32 :: s) = split_strip_discard s.
Proof.
  unfold split_strip_discard.
  change (32 :: s) with ([32] ++ s).
  rewrite split_spaces_l by reflexivity.
  destruct (split comma s) as [|h t]; [reflexivity|].
  cbn [map]. now rewrite (strip_spaces_l [32] h eq_refl).
Qed.

(** X13.  Round trip: clean keys joined with a comma and a space, as
    [main] prints them, are read back as they were. *)
Theorem keys_round_trip (keys : list str) :
  Forall clean_key keys ->
  ask_for_api_keys (py_join (py ", ") keys) = keys.
Proof.
  rewrite ask_for_api_keys_spec.
  induction keys as [|k keys IH]; intros H.
  - reflexivity.
  - inversion H as [|k0 l0 (Hne & Hs & Hc) Hrest]; subst.
    destruct keys as [|k' keys].
    + simpl. unfold split_strip_discard.
      rewrite (split_one comma k Hc). simpl. rewrite Hs.
      destruct k; [congruence|reflexivity].
    + change (py_join (py ", ") (k :: k' :: keys))
        with (k ++ comma :: 32 :: py_join (py ", ") (k' :: keys)).
      unfold split_strip_discard.
      rewrite (split_app_sep comma k _ Hc). cbn [map filter].
      rewrite Hs.
      replace (nonempty k) with true by (destruct k; [congruence|reflexivity]).
      f_equal. fold (split_strip_discard (32 :: py_join (py ", ") (k' :: keys))).
      rewrite discard_space_first. now apply IH.
Qed.

Lemma keys_round_trip_witness :
  ask_for_api_keys (py_join (py ", ") [py "AIza-1"; py "two words"; py "k3"])
  = [py "AIza-1"; py "two words"; py "k3"].
Proof.
  apply keys_round_trip.
  repeat constructor; try discriminate; reflexivity.
Defined.

(** ** ask_for_port *)

Lemma ask_for_port_range (I : interp) (lines rest : list str)
  (msgs : list port_message) (p : Z) :
  ask_for_port I lines = (msgs, Answered p rest) ->
  (1 <= p <= 65535)%Z.
Proof.
  revert msgs. induction lines as [|line lines IH]; intros msgs; simpl.
  - discriminate.
  - destruct (negb (nonempty (strip line))).
    { intros [= _ <- _]. lia. }
    destruct (py_int I (strip line)) as [port|].
    + destruct ((1 <=? port) && (port <=? 65535))%Z eqn:E.
      * intros [= _ <- _]. apply andb_prop in E as [E1 E2].
        apply Z.leb_le in E1, E2. lia.
      * destruct (ask_for_port I lines) as [m r]. intros [= _ ->].
        now apply (IH m).
    + destruct (ask_for_port I lines) as [m r]. intros [= _ ->].
      now apply (IH m).
Qed.

(** X14.  Whatever the operator types, a port that [ask_for_port]
    returns lies between 1 and 65535. *)
Theorem port_in_range (I : interp) (lines rest : list str)
  (msgs : list port_message) (p : Z) :
  ask_for_port I lines = (msgs, Answered p rest) ->
  (1 <= p <= 65535)%Z.
Proof. exact (ask_for_port_range I lines rest msgs p). Qed.

Lemma port_in_range_witness :
  ask_for_port cpython_defaults [py "0"; py "http"; py "70000"; py " 8080 "; py "x"]
  = ([PortOutOfRange; PortNotANumber; PortOutOfRange],
     Answered 8080%Z [py "x"])
  /\ (1 <= 8080 <= 65535)%Z.
Proof.
  assert (H : ask_for_port cpython_defaults
                [py "0"; py "http"; py "70000"; py " 8080 "; py "x"]
              = ([PortOutOfRange; PortNotANumber; PortOutOfRange],
                 Answered 8080%Z [py "x"])) by (vm_compute; reflexivity).
  split; [exact H|]. exact (port_in_range _ _ _ _ _ H).
Defined.

(** X15.  Each line that is refused gets one complaint, and only such
    lines: when a port is returned the lines used up are one more than
    the complaints, and when the input ends first there are as many
    complaints as there were lines. *)
Theorem one_complaint_per_refused_line (I : interp) (lines : list str) :
  match snd (ask_for_port I lines) with
  | Answered _ rest =>
      exists used,
        lines = used ++ rest
        /\ List.length used = S (List.length (fst (ask_for_port I lines)))
  | EndOfInput =>
      List.length (fst (ask_for_port I lines)) = List.length lines
  end.
Proof.
  induction lines as [|line lines IH]; simpl; [reflexivity|].
  assert (Hgo : forall m,
    match snd (let (msgs, r) := ask_for_port I lines in (m :: msgs, r)) with
    | Answered _ rest =>
        exists used,
          line :: lines = used ++ rest
          /\ List.length used
             = S (List.length
                    (fst (let (msgs, r) := ask_for_port I lines in
                          (m :: msgs, r))))
    | EndOfInput =>
        List.length
          (fst (let (msgs, r) := ask_for_port I lines in (m :: msgs, r)))
        = S (List.length lines)
    end).
  { intros m. destruct (ask_for_port I lines) as [msgs [p rest|]];
      simpl in *.
    - destruct IH as (used & -> & Hl). exists (line :: used).
      simpl. auto.
    - now rewrite IH. }
  destruct (negb (nonempty (strip line))).
  { simpl. exists [line]. auto. }
  destruct (py_int I (strip line)) as [port|]; [|apply Hgo].
  destruct ((1 <=? port) && (port <=? 65535))%Z; [|apply Hgo].
  simpl. exists [line]. auto.
Qed.

(** X16.  An empty line, or one of whitespace only, gives the default
    port 2823 at once, without complaint, and uses up that line alone. *)
Theorem blank_line_gives_default (I : interp) (line : str)
  (rest : list str) :
  forallb is_space line = true ->
  ask_for_port I (line :: rest) = ([], Answered 2823%Z rest).
Proof.
  intros H. apply strip_nil_iff in H. simpl. now rewrite H.
Qed.

Lemma blank_line_gives_default_witness :
  ask_for_port cpython_defaults ([32; 9; 160] :: [py "next"])
  = ([], Answered 2823%Z [py "next"]).
Proof. apply blank_line_gives_default. reflexivity. Defined.

Lemma is_digit_bounds (c : char) : is_digit c = true -> 48 <= c <= 57.
Proof.
  unfold is_digit. intros H. apply andb_prop in H as [H1 H2].
  apply N.leb_le in H1, H2. lia.
Qed.

Lemma digit_not_space (c : char) : is_digit c = true -> is_space c = false.
Proof.
  intros H. apply is_digit_bounds in H.
  assert (E : c = 48 \/ c = 49 \/ c = 50 \/ c = 51 \/ c = 52 \/ c = 53
              \/ c = 54 \/ c = 55 \/ c = 56 \/ c = 57) by lia.
  repeat (destruct E as [->|E]; [reflexivity|]). now subst c.
Qed.

Lemma digit_plain (c : char) :
  is_digit c = true ->
  (c <? 128) = true /\ is_ascii_space c = false
  /\ (c =? 45) = false /\ (c =? 43) = false.
Proof.
  intros H. apply is_digit_bounds in H. unfold is_ascii_space.
  repeat split.
  - apply N.ltb_lt. lia.
  - destruct (9 <=? c) eqn:E1; destruct (c <=? 13) eqn:E2;
      destruct (c =? 32) eqn:E3; simpl; try reflexivity;
      try apply N.leb_le in E2; try apply N.eqb_eq in E3; lia.
  - apply N.eqb_neq. lia.
  - apply N.eqb_neq. lia.
Qed.

Lemma int_digits_all (r acc : str) :
  forallb is_digit r = true -> int_digits r acc = Some (rev r ++ acc, []).
Proof.
  revert acc. induction r as [|c r IH]; intros acc H; simpl.
  - reflexivity.
  - simpl in H. apply andb_prop in H as [Hc H]. rewrite Hc.
    rewrite (IH _ H). now rewrite <- app_assoc.
Qed.

(** [int] reads a run of ASCII digits as the number they write. *)
Lemma py_int_digits (I : interp) (ds : str) :
  ds <> [] ->
  forallb is_digit ds = true ->
  int_max_str_digits I = 0%nat
  \/ (List.length ds <= int_max_str_digits I)%nat ->
  py_int I ds = Some (Z.of_N (digits_value ds)).
Proof.
  intros Hne Hd Hl. destruct ds as [|c r]; [congruence|].
  pose proof Hd as Hd'. simpl in Hd'. apply andb_prop in Hd' as [Hc Hr].
  destruct (digit_plain c Hc) as (_ & Hs & Hm & Hp).
  unfold py_int, transform_decimal_and_space.
  replace (forallb (fun c0 => c0 <? 128) (c :: r)) with true.
  2:{ symmetry. apply forallb_forall. intros x Hx.
      apply (proj1 (forallb_forall _ _) Hd) in Hx.
      now apply digit_plain in Hx. }
  cbn [skip_ascii_space]. rewrite Hs, Hm, Hp, Hc.
  rewrite (int_digits_all r [c] Hr). cbn [skip_ascii_space].
  replace ((0 <? int_max_str_digits I)
           && (int_max_str_digits I <? List.length (rev r ++ [c])))%nat
    with false.
  2:{ symmetry. rewrite length_app, length_rev. simpl in *.
      destruct Hl as [-> | Hl]; [reflexivity|].
      apply andb_false_intro2. apply Nat.ltb_ge. lia. }
  now rewrite rev_app_distr, rev_involutive.
Qed.

Lemma strip_digits (ws1 ds ws2 : str) :
  forallb is_space ws1 = true ->
  forallb is_space ws2 = true ->
  forallb is_digit ds = true ->
  strip (ws1 ++ ds ++ ws2) = ds.
Proof.
  intros H1 H2 Hd. rewrite strip_spaces_l, strip_spaces_r by assumption.
  assert (Hh : forall l, forallb is_digit l = true -> starts_unspaced l).
  { intros [|c l] H; [exact I|]. simpl in *.
    apply andb_prop in H as [H _]. now apply digit_not_space. }
  unfold strip. rewrite (lstrip_fix ds (Hh ds Hd)).
  unfold rstrip. rewrite lstrip_fix; [apply rev_involutive|].
  apply Hh. now rewrite forallb_rev.
Qed.

(** X17.  A line that writes a number from 1 to 65535 in ASCII digits,
    leading zeros and blanks around it allowed, gives that number at
    once, without complaint. *)
Theorem port_digits_accepted
  (I : interp) (ws1 ds ws2 : str) (rest : list str) :
  forallb is_space ws1 = true ->
  forallb is_space ws2 = true ->
  ds <> [] ->
  forallb is_digit ds = true ->
  int_max_str_digits I = 0%nat
  \/ (List.length ds <= int_max_str_digits I)%nat ->
  1 <= digits_value ds <= 65535 ->
  ask_for_port I ((ws1 ++ ds ++ ws2) :: rest)
  = ([], Answered (Z.of_N (digits_value ds)) rest).
Proof.
  intros H1 H2 Hne Hd Hl Hr. cbn [ask_for_port].
  rewrite (strip_digits ws1 ds ws2 H1 H2 Hd).
  replace (nonempty ds) with true by (destruct ds; [congruence|reflexivity]).
  cbn [negb]. rewrite (py_int_digits I ds Hne Hd Hl).
  replace ((1 <=? Z.of_N (digits_value ds))
           && (Z.of_N (digits_value ds) <=? 65535))%Z with true;
    [reflexivity|].
  symmetry. apply andb_true_intro. split; apply Z.leb_le; lia.
Qed.

Lemma port_digits_accepted_witness :
  ask_for_port cpython_defaults (([32] ++ py "0443" ++ [9; 32]) :: [py "u"])
  = ([], Answered 443%Z [py "u"]).
Proof.
  apply (port_digits_accepted cpython_defaults [32] (py "0443") [9; 32]).
  - reflexivity.
  - reflexivity.
  - discriminate.
  - reflexivity.
  - right. vm_compute. lia.
  - vm_compute. split; discriminate.
Defined.

(** X18.  A line that writes zero or a number above 65535 in ASCII
    digits is refused with the complaint about the range, and the next
    line is asked for. *)
Theorem port_out_of_range_refused
  (I : interp) (ws1 ds ws2 : str) (rest : list str) :
  forallb is_space ws1 = true ->
  forallb is_space ws2 = true ->
  ds <> [] ->
  forallb is_digit ds = true ->
  int_max_str_digits I = 0%nat
  \/ (List.length ds <= int_max_str_digits I)%nat ->
  digits_value ds = 0 \/ 65535 < digits_value ds ->
  ask_for_port I ((ws1 ++ ds ++ ws2) :: rest)
  = (PortOutOfRange :: fst (ask_for_port I rest),
     snd (ask_for_port I rest)).
Proof.
  intros H1 H2 Hne Hd Hl Hr. cbn [ask_for_port].
  rewrite (strip_digits ws1 ds ws2 H1 H2 Hd).
  replace (nonempty ds) with true by (destruct ds; [congruence|reflexivity]).
  cbn [negb]. rewrite (py_int_digits I ds Hne Hd Hl).
  replace ((1 <=? Z.of_N (digits_value ds))
           && (Z.of_N (digits_value ds) <=? 65535))%Z with false.
  - now destruct (ask_for_port I rest).
  - symmetry. destruct Hr as [Hr|Hr].
    + rewrite Hr. reflexivity.
    + apply andb_false_intro2. apply Z.leb_gt. lia.
Qed.

Lemma port_out_of_range_refused_witness :
  ask_for_port cpython_defaults (([] ++ py "99999" ++ []) :: [py "80"])
  = (PortOutOfRange :: fst (ask_for_port cpython_defaults [py "80"]),
     snd (ask_for_port cpython_defaults [py "80"]))
  /\ ask_for_port cpython_defaults [py "99999"; py "80"]
     = ([PortOutOfRange], Answered 80%Z []).
Proof.
  split; [|vm_compute; reflexivity].
  apply (port_out_of_range_refused cpython_defaults [] (py "99999") []).
  - reflexivity.
  - reflexivity.
  - discriminate.
  - reflexivity.
  - right. vm_compute. lia.
  - right. vm_compute. reflexivity.
Defined.

(** ** main *)

Lemma main_config_cases (I : interp) (net : network) (con : console)
  (lines : list str) :
  (outcome (main_config I net con lines) = InputEnded
   /\ probe_trace (main_config I net con lines) = [])
  \/ exists msgs p u k more,
       ask_for_port I lines = (msgs, Answered p (u :: k :: more))
       /\ main_config I net con lines
          = {| outcome :=
                 match fst (get_fresh_innertube_key I net con DEFAULT_UA) with
                 | Ok v =>
                     Document
                       (build_config p (strip u) (ask_for_api_keys k) v)
                 | Raise e => Failed e
                 end;
               port_messages := msgs;
               probe_trace :=
                 snd (get_fresh_innertube_key I net con DEFAULT_UA) |}.
Proof.
  unfold main_config.
  destruct (ask_for_port I lines) as [msgs [p [|u [|k more]]|]];
    try (left; split; reflexivity).
  cbn [ask_for_main_url ask_for_api_keys_from].
  right. exists msgs, p, u, k, more. split; [reflexivity|].
  destruct (get_fresh_innertube_key I net con DEFAULT_UA) as [[v|e] tr];
    reflexivity.
Qed.

(** X19.  Every document that [main] builds has a port between 1 and
    65535 under server, a main url without whitespace at either end, a
    list of clean keys under api, keys, active, and under api,
    innertube, key either [None] or a value that passes [if key:]. *)
Theorem document_fields (I : interp) (net : network) (con : console)
  (lines : list str) (config : value) :
  outcome (main_config I net con lines) = Document config ->
  exists p u ks v,
    lookup [py "server"; py "port"] config = Some (VInt p)
    /\ (1 <= p <= 65535)%Z
    /\ lookup [py "server"; py "main_url"] config = Some (VStr u)
    /\ strip u = u
    /\ lookup [py "api"; py "keys"; py "active"] config
       = Some (VList (map VStr ks))
    /\ Forall clean_key ks
    /\ lookup [py "api"; py "innertube"; py "key"] config = Some v
    /\ (v = VNone \/ truthy v = true).
Proof.
  destruct (main_config_cases I net con lines)
    as [[E _]|(msgs & p & u & k & more & Hp & E)];
    rewrite E; [discriminate|].
  cbn [outcome].
  destruct (fst (get_fresh_innertube_key I net con DEFAULT_UA)) as [v|e] eqn:F;
    [|discriminate].
  intros [= <-].
  exists p, (strip u), (ask_for_api_keys k), v.
  split; [reflexivity|]. split; [exact (ask_for_port_range _ _ _ _ _ Hp)|].
  split; [reflexivity|]. split; [apply strip_idem|].
  split; [reflexivity|]. split; [|split; [reflexivity|]].
  - apply Forall_forall. intros x. apply keys_are_clean_of.
  - unfold get_fresh_innertube_key in F.
    exact (probe_returns_usable _ _ _ _ _ _ _ F).
Qed.



(** X21.  The questions are asked in the order port, main url, keys, and
    the probe runs last: once [ask_for_port] has its port, the next line
    is the main url, the one after it the key list, later lines are not
    read.  On a standard output that encodes as UTF-8: when the probe
    returns, the document is built from the port, the stripped url, the
    keys split, stripped and filtered, and the probe's result; when the
    probe raises, [main] fails with its exception and builds no
    document. *)
Theorem main_composes (I : interp) (net : network)
  (lines more : list str) (msgs : list port_message) (p : Z) (u k : str) :
  ask_for_port I lines = (msgs, Answered p (u :: k :: more)) ->
  outcome (main_config I net utf8_console lines)
  = match fst (get_fresh_innertube_key I net utf8_console DEFAULT_UA) with
    | Ok v => Document (build_config p (strip u) (split_strip_discard k) v)
    | Raise e => Failed e
    end
  /\ probe_trace (main_config I net utf8_console lines)
     = snd (get_fresh_innertube_key I net utf8_console DEFAULT_UA)
  /\ port_messages (main_config I net utf8_console lines) = msgs.
Proof.
  intros Hp. unfold main_config. rewrite Hp.
  cbn [ask_for_main_url ask_for_api_keys_from].
  rewrite ask_for_api_keys_spec.
  destruct (get_fresh_innertube_key I net utf8_console DEFAULT_UA)
    as [[v|e] tr];
    cbn [fst snd outcome port_messages probe_trace]; auto.
Qed.

Lemma main_composes_witness :
  ask_for_port cpython_defaults
    [py "99999"; []; py " http://h "; py "a, b ,,c"; py "unread"]
  = ([PortOutOfRange],
     Answered 2823%Z [py " http://h "; py "a, b ,,c"; py "unread"])
  /\ outcome
       (main_config cpython_defaults
          (serve resp_fault resp_literal resp_fault) utf8_console
          [py "99999"; []; py " http://h "; py "a, b ,,c"; py "unread"])
     = Document
         (build_config 2823 (py "http://h") [py "a"; py "b"; py "c"]
            (VStr (py "AIzaSyTest")))
  /\ outcome
       (main_config cpython_defaults
          (serve resp_fault_surrogate resp_literal resp_fault) utf8_console
          [py "99999"; []; py " http://h "; py "a, b ,,c"; py "unread"])
     = Failed
         (PyError (py "UnicodeEncodeError")
            (py "'utf-8' codec can't encode character '\udcff' in position 69: surrogates not allowed")).
Proof.
  assert (H : ask_for_port cpython_defaults
                [py "99999"; []; py " http://h "; py "a, b ,,c"; py "unread"]
              = ([PortOutOfRange],
                 Answered 2823%Z
                   [py " http://h "; py "a, b ,,c"; py "unread"]))
    by (vm_compute; reflexivity).
  split; [exact H|]. split.
  - exact (proj1 (main_composes cpython_defaults
                    (serve resp_fault resp_literal resp_fault)
                    _ _ _ _ _ _ H)).
  - exact (proj1 (main_composes cpython_defaults
                    (serve resp_fault_surrogate resp_literal resp_fault)
                    _ _ _ _ _ _ H)).
Defined.

Lemma document_fields_witness :
  outcome (main_config cpython_defaults
             (serve resp_literal resp_fault resp_fault) utf8_console
             [py "8080"; py "example.org "; py "k1,k2"])
  = Document (build_config 8080 (py "example.org") [py "k1"; py "k2"]
                (VStr (py "AIzaSyTest")))
  /\ exists p u ks v,
       lookup [py "server"; py "port"]
         (build_config 8080 (py "example.org") [py "k1"; py "k2"]
            (VStr (py "AIzaSyTest"))) = Some (VInt p)
       /\ (1 <= p <= 65535)%Z
       /\ lookup [py "server"; py "main_url"]
            (build_config 8080 (py "example.org") [py "k1"; py "k2"]
               (VStr (py "AIzaSyTest"))) = Some (VStr u)
       /\ strip u = u
       /\ lookup [py "api"; py "keys"; py "active"]
            (build_config 8080 (py "example.org") [py "k1"; py "k2"]
               (VStr (py "AIzaSyTest"))) = Some (VList (map VStr ks))
       /\ Forall clean_key ks
       /\ lookup [py "api"; py "innertube"; py "key"]
            (build_config 8080 (py "example.org") [py "k1"; py "k2"]
               (VStr (py "AIzaSyTest"))) = Some v
       /\ (v = VNone \/ truthy v = true).
Proof.
  assert (H : outcome (main_config cpython_defaults
                         (serve resp_literal resp_fault resp_fault)
                         utf8_console
                         [py "8080"; py "example.org "; py "k1,k2"])
              = Document (build_config 8080 (py "example.org")
                            [py "k1"; py "k2"] (VStr (py "AIzaSyTest"))))
    by (vm_compute; reflexivity).
  split; [exact H|].
  exact (document_fields _ _ _ _ _ H).
Defined.
